(** * Risk range bands: a shallow embedding of [risk_range.py]

    The pipeline of [src/risk_range.py] ([compute_indicators], then
    [build_risk_range]) is embedded over exact real arithmetic, together
    with [_true_range], [make_table], the part of [fetch_prices] that
    follows the download, and the ticker field and sidebar of [app.py].

    Number model.  A cell of a DataFrame is a Python/NumPy float.  It is
    modelled as [fnum]: a real number, one of the two infinities, or NaN
    (pandas' "missing").  Arithmetic follows IEEE 754 on the special values
    (NaN propagates, [inf - inf], [0 * inf], [0 / 0] and [inf / inf] are NaN,
    [x / 0] is an infinity for [x <> 0]); on finite values it is the exact
    arithmetic of [R], so rounding, overflow and the sign of zero are not
    represented.  Scalar configuration values (z, the blend weights, the
    regime sensitivities) are finite reals; window sizes are integers.
    Where a property turns on rounding itself, the cells of the line are
    also evaluated over binary64 (module [B64]).

    DataFrame model.  A frame is the list of its rows in index order; the
    index label of a row is its [Date].  Labels are taken to be unique, so
    that the label lookup [prev_close.loc[r.name]] of line 30 is the lookup
    at the row's own position. *)

From Stdlib Require Import String Ascii.
From Stdlib Require Floats.
From Stdlib Require Import Reals Lra Lia List ZArith Bool.
Import ListNotations.
Open Scope R_scope.

(** ** Floats *)

Inductive fnum : Type :=
| NaN
| PInf
| NInf
| Fin (x : R).

Inductive sign : Type := Neg | Zero | Pos.

Definition Rsign (x : R) : sign :=
  match total_order_T x 0 with
  | inleft (left _) => Neg
  | inleft (right _) => Zero
  | inright _ => Pos
  end.

Definition sign_opp (s : sign) : sign :=
  match s with Neg => Pos | Zero => Zero | Pos => Neg end.

(** The infinity of a given sign; a zero sign stands for [0 * inf]. *)
Definition inf_of (s : sign) : fnum :=
  match s with Neg => NInf | Zero => NaN | Pos => PInf end.

Definition is_nan (a : fnum) : bool :=
  match a with NaN => true | _ => false end.

Definition is_finite (a : fnum) : bool :=
  match a with Fin _ => true | _ => false end.

Definition fneg (a : fnum) : fnum :=
  match a with
  | NaN => NaN
  | PInf => NInf
  | NInf => PInf
  | Fin x => Fin (- x)
  end.

Definition fadd (a b : fnum) : fnum :=
  match a, b with
  | NaN, _ | _, NaN => NaN
  | PInf, NInf | NInf, PInf => NaN
  | PInf, _ | _, PInf => PInf
  | NInf, _ | _, NInf => NInf
  | Fin x, Fin y => Fin (x + y)
  end.

Definition fsub (a b : fnum) : fnum :=
  match a, b with
  | NaN, _ | _, NaN => NaN
  | PInf, PInf | NInf, NInf => NaN
  | PInf, _ | _, NInf => PInf
  | NInf, _ | _, PInf => NInf
  | Fin x, Fin y => Fin (x - y)
  end.

Definition fmul (a b : fnum) : fnum :=
  match a, b with
  | NaN, _ | _, NaN => NaN
  | PInf, PInf | NInf, NInf => PInf
  | PInf, NInf | NInf, PInf => NInf
  | PInf, Fin y | Fin y, PInf => inf_of (Rsign y)
  | NInf, Fin y | Fin y, NInf => inf_of (sign_opp (Rsign y))
  | Fin x, Fin y => Fin (x * y)
  end.

(** Division.  A finite divisor equal to zero gives the infinity with the
    sign of the dividend, and NaN for [0 / 0]. *)
Definition fdiv (a b : fnum) : fnum :=
  match a, b with
  | NaN, _ | _, NaN => NaN
  | PInf, PInf | PInf, NInf | NInf, PInf | NInf, NInf => NaN
  | Fin _, PInf | Fin _, NInf => Fin 0
  | PInf, Fin y => if Rlt_dec y 0 then NInf else PInf
  | NInf, Fin y => if Rlt_dec y 0 then PInf else NInf
  | Fin x, Fin y => if Req_dec_T y 0 then inf_of (Rsign x) else Fin (x / y)
  end.

(** Python's [abs] on a float. *)
Definition fabs (a : fnum) : fnum :=
  match a with
  | NaN => NaN
  | PInf | NInf => PInf
  | Fin x => Fin (Rabs x)
  end.

(** The comparison [a > b]; false as soon as one side is NaN. *)
Definition fgt (a b : fnum) : bool :=
  match a, b with
  | NaN, _ | _, NaN => false
  | PInf, PInf => false
  | PInf, _ => true
  | _, PInf => false
  | NInf, _ => false
  | Fin _, NInf => true
  | Fin x, Fin y => if Rlt_dec y x then true else false
  end.

(** The order [a <= b] as a proposition; it does not hold at NaN. *)
Definition fle (a b : fnum) : Prop :=
  match a, b with
  | NaN, _ | _, NaN => False
  | NInf, _ => True
  | _, PInf => True
  | PInf, _ => False
  | Fin _, NInf => False
  | Fin x, Fin y => x <= y
  end.

(** Python's builtin [max] of three arguments: the running maximum is
    replaced only when the next item compares greater. *)
Definition py_max3 (a b c : fnum) : fnum :=
  let m := if fgt b a then b else a in
  if fgt c m then c else m.

(** [np.log]. *)
Definition np_log (a : fnum) : fnum :=
  match a with
  | NaN | NInf => NaN
  | PInf => PInf
  | Fin x =>
      match Rsign x with
      | Neg => NaN
      | Zero => NInf
      | Pos => Fin (ln x)
      end
  end.

(** [np.sqrt]. *)
Definition np_sqrt (a : fnum) : fnum :=
  match a with
  | NaN | NInf => NaN
  | PInf => PInf
  | Fin x => if Rlt_dec x 0 then NaN else Fin (sqrt x)
  end.

(** [np.maximum(a, 0)]: NaN propagates. *)
Definition np_maximum0 (a : fnum) : fnum :=
  match a with
  | NaN => NaN
  | PInf => PInf
  | NInf => Fin 0
  | Fin x => if Rlt_dec x 0 then Fin 0 else Fin x
  end.

(** [x ** 2]. *)
Definition fsquare (a : fnum) : fnum := fmul a a.

(** ** pandas column operations

    A column (Series) is a [list fnum] in index order. *)

Definition column : Type := list fnum.

Fixpoint map2 {A B C : Type} (f : A -> B -> C) (l : list A) (l' : list B)
  : list C :=
  match l, l' with
  | x :: t, y :: t' => f x y :: map2 f t t'
  | _, _ => []
  end.

(** [Series.fillna(0)] on one cell: only a missing value is replaced. *)
Definition fillna0 (a : fnum) : fnum :=
  match a with NaN => Fin 0 | _ => a end.

(** [Series.clip(lower=0)] on one cell: a missing value stays missing. *)
Definition clip_lower0 (a : fnum) : fnum :=
  match a with
  | NaN => NaN
  | PInf => PInf
  | NInf => Fin 0
  | Fin x => if Rlt_dec x 0 then Fin 0 else Fin x
  end.

(** [Series.shift(n)] for [n >= 0]. *)
Definition shift (n : nat) (xs : column) : column :=
  firstn (length xs) (repeat NaN n ++ xs).

(** [Series.diff()]. *)
Definition diff (xs : column) : column :=
  map2 fsub xs (shift 1 xs).

(** [Series.pct_change(n)]: the ratio to the value [n] rows earlier, minus
    one.  (No forward fill of missing values is applied before the ratio.) *)
Definition pct_change (n : nat) (xs : column) : column :=
  map2 (fun x p => fsub (fdiv x p) (Fin 1)) xs (shift n xs).

(** *** Rolling windows *)

(** The rows of the window of size [w] that ends at position [t]. *)
Definition window_at (w t : nat) (xs : column) : column :=
  skipn (t + 1 - w) (firstn (t + 1) xs).

(** The observations of a window: pandas turns infinities into missing
    values before a rolling or exponentially weighted computation, and
    missing values are skipped. *)
Fixpoint observations (l : column) : list R :=
  match l with
  | [] => []
  | Fin x :: l' => x :: observations l'
  | _ :: l' => observations l'
  end.

Definition Rsum (l : list R) : R := fold_right Rplus 0 l.

Definition Rmean (l : list R) : R := Rsum l / INR (length l).

(** Sum of squared deviations from the mean. *)
Definition ssqdm (l : list R) : R :=
  Rsum (map (fun x => (x - Rmean l) * (x - Rmean l)) l).

Definition calc_mean (minp : nat) (obs : list R) : fnum :=
  if ((minp <=? length obs) && (0 <? length obs))%nat
  then Fin (Rmean obs)
  else NaN.

Definition calc_var (minp ddof : nat) (obs : list R) : fnum :=
  if ((Nat.max minp 1 <=? length obs) && (ddof <? length obs))%nat
  then
    if (length obs =? 1)%nat then Fin 0
    else Fin (ssqdm obs / (INR (length obs) - INR ddof))
  else NaN.

(** [zsqrt]: square root with negative inputs mapped to zero. *)
Definition zsqrt (a : fnum) : fnum :=
  match a with
  | NaN => NaN
  | PInf => PInf
  | NInf => Fin 0
  | Fin x => if Rlt_dec x 0 then Fin 0 else Fin (sqrt x)
  end.

(** [Series.rolling(w, min_periods=minp).mean()]. *)
Definition rolling_mean (w minp : nat) (xs : column) : column :=
  map (fun t => calc_mean minp (observations (window_at w t xs)))
      (seq 0 (length xs)).

(** [Series.rolling(w, min_periods=minp).var()], with [ddof = 1]. *)
Definition rolling_var (w minp : nat) (xs : column) : column :=
  map (fun t => calc_var minp 1 (observations (window_at w t xs)))
      (seq 0 (length xs)).

(** [Series.rolling(w, min_periods=minp).std()]. *)
Definition rolling_std (w minp : nat) (xs : column) : column :=
  map zsqrt (rolling_var w minp xs).

(** *** Exponentially weighted variance

    [Series.ewm(halflife=hl, adjust=False).std()] is the square root
    ([zsqrt]) of the exponentially weighted variance, which pandas computes
    with the sequential scan [ewmcov] of a series against itself.  The scan
    is transcribed for the options the source passes or leaves at their
    defaults: [adjust=False], [ignore_na=False], [bias=False] and a minimum
    of one observation. *)

Record ewm_state : Type := mk_ewm_state {
  mean_x : option R;   (* [None] is the NaN of the scan's start *)
  cov : R;
  sum_wt : R;
  sum_wt2 : R;
  old_wt : R;
  nobs : nat
}.

(** A missing or infinite cell is not an observation. *)
Definition ewm_prep (a : fnum) : option R :=
  match a with Fin x => Some x | _ => None end.

Definition is_observation (cur : option R) : nat :=
  match cur with Some _ => 1%nat | None => 0%nat end.

Definition ewm_init (x0 : option R) : ewm_state :=
  {| mean_x := x0; cov := 0; sum_wt := 1; sum_wt2 := 1; old_wt := 1;
     nobs := is_observation x0 |}.

(** One iteration of the scan; [alpha] is the weight of the new
    observation and [1 - alpha] the decay of the old ones. *)
Definition ewm_step (alpha : R) (st : ewm_state) (cur : option R)
  : ewm_state :=
  let old_wt_factor := 1 - alpha in
  let new_wt := alpha in
  let nobs' := (nobs st + is_observation cur)%nat in
  match mean_x st with
  | Some old_mean =>
      let sum_wt' := sum_wt st * old_wt_factor in
      let sum_wt2' := sum_wt2 st * (old_wt_factor * old_wt_factor) in
      let old_wt' := old_wt st * old_wt_factor in
      match cur with
      | Some cur_x =>
          let mean' :=
            if Req_dec_T old_mean cur_x then old_mean
            else (old_wt' * old_mean + new_wt * cur_x) / (old_wt' + new_wt) in
          let cov' :=
            (old_wt' * (cov st + (old_mean - mean') * (old_mean - mean'))
             + new_wt * ((cur_x - mean') * (cur_x - mean')))
            / (old_wt' + new_wt) in
          let sum_wt'' := sum_wt' + new_wt in
          let sum_wt2'' := sum_wt2' + new_wt * new_wt in
          let old_wt'' := old_wt' + new_wt in
          {| mean_x := Some mean'; cov := cov';
             sum_wt := sum_wt'' / old_wt'';
             sum_wt2 := sum_wt2'' / (old_wt'' * old_wt'');
             old_wt := 1; nobs := nobs' |}
      | None =>
          {| mean_x := Some old_mean; cov := cov st;
             sum_wt := sum_wt'; sum_wt2 := sum_wt2'; old_wt := old_wt';
             nobs := nobs' |}
      end
  | None =>
      {| mean_x := cur; cov := cov st;
         sum_wt := sum_wt st; sum_wt2 := sum_wt2 st; old_wt := old_wt st;
         nobs := nobs' |}
  end.

(** The unbiased variance read off a state. *)
Definition ewm_out (minp : nat) (st : ewm_state) : fnum :=
  if (minp <=? nobs st)%nat then
    let numerator := sum_wt st * sum_wt st in
    let denominator := numerator - sum_wt2 st in
    if Rlt_dec 0 denominator then Fin (numerator / denominator * cov st)
    else NaN
  else NaN.

Fixpoint ewm_scan (alpha : R) (minp : nat) (st : ewm_state)
  (xs : list (option R)) : column :=
  match xs with
  | [] => []
  | cur :: rest =>
      let st' := ewm_step alpha st cur in
      ewm_out minp st' :: ewm_scan alpha minp st' rest
  end.

Definition ewmcov (alpha : R) (minp : nat) (xs : list (option R)) : column :=
  match xs with
  | [] => []
  | x0 :: rest => NaN :: ewm_scan alpha minp (ewm_init x0) rest
  end.

Definition ewm_std (alpha : R) (xs : column) : column :=
  map zsqrt (ewmcov alpha 1 (map ewm_prep xs)).

(** ** Errors raised by the library calls *)

Inductive result (A : Type) : Type :=
| Ok (a : A)
| ValueError (msg : string).

Arguments Ok {A} a.
Arguments ValueError {A} msg.

Definition bind {A B : Type} (c : result A) (k : A -> result B) : result B :=
  match c with
  | Ok a => k a
  | ValueError msg => ValueError msg
  end.

Notation "x <- c ;; k" := (bind c (fun x => k))
  (at level 61, c at next level, right associativity).

Definition is_error {A : Type} (c : result A) : bool :=
  match c with Ok _ => false | ValueError _ => true end.

(** [Series.ewm(halflife=hl, adjust=False)]: the half-life is validated and
    turned into a centre of mass, from which the scan takes its [alpha]. *)
Definition ewm_alpha (halflife : Z) : R :=
  let decay := 1 - exp (ln 0.5 / IZR halflife) in
  let com := 1 / decay - 1 in
  1 / (1 + com).

Definition ewm (halflife : Z) : result R :=
  if (halflife <=? 0)%Z
  then ValueError "halflife must satisfy: halflife > 0"
  else Ok (ewm_alpha halflife).

(** [Series.rolling(window, min_periods)]: the validation of the
    constructor; the minimum number of observations defaults to the
    window. *)
Definition rolling (window : Z) (min_periods : option Z)
  : result (nat * nat) :=
  _ <- match min_periods with
       | Some m =>
           if (m <? 0)%Z then ValueError "min_periods must be >= 0"
           else if (window <? m)%Z
                then ValueError "min_periods must be <= window"
                else Ok tt
       | None => Ok tt
       end ;;
  if (window <? 0)%Z
  then ValueError "window must be an integer 0 or greater"
  else
    let minp := match min_periods with Some m => m | None => window end in
    Ok (Z.to_nat window, Z.to_nat minp).

(** ** The frames of [risk_range.py] *)

(** One row of the downloaded frame: the index label and the five columns
    the pipeline reads. *)
Record bar : Type := mk_bar {
  Date : Z;
  Open : fnum;
  High : fnum;
  Low : fnum;
  Close : fnum;
  Volume : fnum
}.

(** One row of the frame returned by [compute_indicators]. *)
Record indicator_row : Type := mk_indicator_row {
  price : bar;
  Ret : fnum;
  LogRet : fnum;
  Vol_EWMA : fnum;
  ATR : fnum;
  Vol_ATR : fnum;
  Vol_GK : fnum;
  VolZ : fnum;
  VoV_Z : fnum;
  ROC_1d : fnum;
  ROC_20d : fnum
}.

(** One row of the frame returned by [build_risk_range]. *)
Record risk_row : Type := mk_risk_row {
  ind : indicator_row;
  Vol_Combined : fnum;
  WidthPct : fnum;
  Width : fnum;
  Center : fnum;
  Upper : fnum;
  Lower : fnum
}.

(** The cell of a column at a position, missing when out of range. *)
Definition cell (c : column) (t : nat) : fnum := nth t c NaN.

(** ** [compute_indicators] *)

(** Lines 14-18. *)
Definition _true_range (row : bar) (prev_close : fnum) : fnum :=
  let hl := fsub (High row) (Low row) in
  let hc := fabs (fsub (High row) prev_close) in
  let lc := fabs (fsub (Low row) prev_close) in
  py_max3 hl hc lc.

(** Lines 22-23 and 47-48. *)
Definition Ret_col (df : list bar) : column := pct_change 1 (map Close df).

Definition LogRet_col (df : list bar) : column :=
  diff (map np_log (map Close df)).

Definition ROC_20d_col (df : list bar) : column :=
  pct_change 20 (map Close df).

(** Line 26. *)
Definition Vol_EWMA_col (alpha : R) (df : list bar) : column :=
  ewm_std alpha (LogRet_col df).

(** Lines 29-32. *)
Definition tr_col (df : list bar) : column :=
  map2 _true_range df (shift 1 (map Close df)).

Definition ATR_col (atr : nat * nat) (df : list bar) : column :=
  rolling_mean (fst atr) (snd atr) (tr_col df).

Definition Vol_ATR_col (atr : nat * nat) (df : list bar) : column :=
  map2 fdiv (ATR_col atr df) (map Close df).

(** Lines 35-37. *)
Definition gk_var (row : bar) : fnum :=
  fsub (fmul (Fin 0.5) (fsquare (np_log (fdiv (High row) (Low row)))))
       (fmul (Fin (2 * ln 2 - 1))
             (fsquare (np_log (fdiv (Close row) (Open row))))).

Definition Vol_GK_col (df : list bar) : column :=
  map (fun row => np_sqrt (np_maximum0 (gk_var row))) df.

(** The z-score of a column against its own rolling mean and standard
    deviation, as written on lines 40 and 44. *)
Definition zscore (win : nat * nat) (xs : column) : column :=
  map2 fdiv
       (map2 fsub xs (rolling_mean (fst win) (snd win) xs))
       (rolling_std (fst win) (snd win) xs).

(** Line 40. *)
Definition VolZ_col (vol : nat * nat) (df : list bar) : column :=
  zscore vol (map Volume df).

(** Lines 43-44. *)
Definition vov_col (alpha : R) (vov : nat * nat) (df : list bar) : column :=
  rolling_std (fst vov) (snd vov) (Vol_EWMA_col alpha df).

Definition VoV_Z_col (alpha : R) (vov : nat * nat) (df : list bar)
  : column :=
  zscore vov (vov_col alpha vov df).

(** The frame with its new columns: row [t] takes the cell [t] of each. *)
Definition indicator_frame (alpha : R) (atr vol vov : nat * nat)
  (df : list bar) : list indicator_row :=
  map (fun tb : nat * bar =>
         let (t, b) := tb in
         {| price := b;
            Ret := cell (Ret_col df) t;
            LogRet := cell (LogRet_col df) t;
            Vol_EWMA := cell (Vol_EWMA_col alpha df) t;
            ATR := cell (ATR_col atr df) t;
            Vol_ATR := cell (Vol_ATR_col atr df) t;
            Vol_GK := cell (Vol_GK_col df) t;
            VolZ := cell (VolZ_col vol df) t;
            VoV_Z := cell (VoV_Z_col alpha vov df) t;
            ROC_1d := cell (Ret_col df) t;
            ROC_20d := cell (ROC_20d_col df) t |})
      (combine (seq 0 (length df)) df).

(** Line 31, [out["ATR"] = ...]: on a frame without rows
    [out.apply(..., axis=1)] yields a frame, not a column, and a frame of
    several columns cannot be stored under the single label. *)
Definition set_ATR (df : list bar) : result unit :=
  match df with
  | [] =>
      ValueError
        "Cannot set a DataFrame with multiple columns to the single column ATR"
  | _ :: _ => Ok tt
  end.

(** Lines 20-50.  The library objects are built in the order of the source,
    so the first invalid argument decides the error. *)
Definition compute_indicators (df : list bar)
  (hl atr_win vol_win vov_win : Z) : result (list indicator_row) :=
  alpha <- ewm hl ;;
  atr <- rolling atr_win (Some atr_win) ;;
  _ <- set_ATR df ;;
  vol <- rolling vol_win None ;;
  vov <- rolling vov_win None ;;
  Ok (indicator_frame alpha atr vol vov df).

(** ** [build_risk_range] *)

(** Lines 59-64. *)
Definition normalize_weights (w_ewm w_gk w_atr : R) : R * R * R :=
  let s := w_ewm + w_gk + w_atr in
  if Req_dec_T s 0
  then (0.5 / 1, 0.3 / 1, 0.2 / 1)
  else (w_ewm / s, w_gk / s, w_atr / s).

(** Lines 72-73: the regime factors, a missing z-score counting as zero. *)
Definition vol_factor (vol_adj : R) (r : indicator_row) : fnum :=
  fadd (Fin 1) (fmul (Fin vol_adj) (fillna0 (VolZ r))).

Definition vov_factor (vov_adj : R) (r : indicator_row) : fnum :=
  fadd (Fin 1) (fmul (Fin vov_adj) (fillna0 (VoV_Z r))).

(** Lines 66-84 on one row; every operation of these lines is
    element-wise. *)
Definition risk_range_row (z w_ewm w_gk w_atr vol_adj vov_adj tilt_gamma : R)
  (r : indicator_row) : risk_row :=
  let vol_combined :=
    fadd (fadd (fmul (Fin w_ewm) (Vol_EWMA r)) (fmul (Fin w_gk) (Vol_GK r)))
         (fmul (Fin w_atr) (Vol_ATR r)) in
  let width_pct :=
    clip_lower0
      (fmul (fmul (fmul (Fin z) vol_combined) (vol_factor vol_adj r))
            (vov_factor vov_adj r)) in
  let width := fmul width_pct (Close (price r)) in
  let center_tilt :=
    fmul (fmul (Fin tilt_gamma) (fillna0 (ROC_20d r))) width in
  let center := fadd (Close (price r)) center_tilt in
  {| ind := r;
     Vol_Combined := vol_combined;
     WidthPct := width_pct;
     Width := width;
     Center := center;
     Upper := fadd center width;
     Lower := fsub center width |}.

(** Lines 52-86. *)
Definition build_risk_range (out : list indicator_row)
  (z w_ewm w_gk w_atr vol_adj vov_adj tilt_gamma : R) : list risk_row :=
  let '(w_ewm, w_gk, w_atr) := normalize_weights w_ewm w_gk w_atr in
  map (risk_range_row z w_ewm w_gk w_atr vol_adj vov_adj tilt_gamma) out.

(** ** The core as the application runs it ([app.py], lines 45-55) *)

Record config : Type := mk_config {
  cfg_hl : Z;
  cfg_atr_win : Z;
  cfg_vol_win : Z;
  cfg_vov_win : Z;
  cfg_z : R;
  cfg_w_ewm : R;
  cfg_w_gk : R;
  cfg_w_atr : R;
  cfg_vol_adj : R;
  cfg_vov_adj : R;
  cfg_tilt_gamma : R
}.

Definition run_core (df : list bar) (c : config) : result (list risk_row) :=
  out <- compute_indicators df (cfg_hl c) (cfg_atr_win c) (cfg_vol_win c)
           (cfg_vov_win c) ;;
  Ok (build_risk_range out (cfg_z c) (cfg_w_ewm c) (cfg_w_gk c)
        (cfg_w_atr c) (cfg_vol_adj c) (cfg_vov_adj c) (cfg_tilt_gamma c)).

(** ** Vocabulary of the properties *)

(** The configurations the library calls of [compute_indicators] accept: a
    positive half-life and windows that are not negative. *)
Definition accepted (hl atr_win vol_win vov_win : Z) : Prop :=
  (0 < hl /\ 0 <= atr_win /\ 0 <= vol_win /\ 0 <= vov_win)%Z.

(** The rolling object of an accepted window: its size, and the same
    minimum number of observations. *)
Definition window (w : Z) : nat * nat := (Z.to_nat w, Z.to_nat w).

(** The columns [build_risk_range] reads are all real-valued in a row. *)
Definition inputs_defined (r : indicator_row) : Prop :=
  is_finite (Close (price r)) = true /\
  is_finite (Vol_EWMA r) = true /\
  is_finite (Vol_GK r) = true /\
  is_finite (Vol_ATR r) = true /\
  is_finite (VolZ r) = true /\
  is_finite (VoV_Z r) = true /\
  is_finite (ROC_20d r) = true.

(** The window of size [w] ending at [t] holds fewer than [w]
    observations: it reaches before the first row, or a cell in it is
    missing or infinite. *)
Definition window_incomplete (w t : nat) (xs : column) : Prop :=
  (length (observations (window_at w t xs)) < w)%nat.

(** After a first observation the scan carries unit weights, and the sum
    of squared weights never exceeds one. *)
Definition ewm_steady (st : ewm_state) : Prop :=
  (exists m, mean_x st = Some m) /\
  sum_wt st = 1 /\ old_wt st = 1 /\ sum_wt2 st <= 1 /\ (1 <= nobs st)%nat.

(** Exposes the fields of a built row without unfolding the arithmetic. *)
Ltac row_fields :=
  unfold risk_range_row in *;
  cbn [ind Vol_Combined WidthPct Width Center Upper Lower] in *.

(** ** Sample data *)

Definition sample_bar (d : Z) (c v : R) : bar :=
  {| Date := d; Open := Fin c; High := Fin (c + 1); Low := Fin (c - 1);
     Close := Fin c; Volume := Fin v |}.

(** A row past warm-up in a neutral regime. *)
Definition sample_row : indicator_row :=
  {| price := sample_bar 30 100 1000;
     Ret := Fin 0; LogRet := Fin 0;
     Vol_EWMA := Fin 0.01; ATR := Fin 2; Vol_ATR := Fin 0.02;
     Vol_GK := Fin 0.01;
     VolZ := Fin 0; VoV_Z := Fin 0;
     ROC_1d := Fin 0; ROC_20d := Fin 0.05 |}.

(** The default parameters of the source, with the confidence left open. *)
Definition default_config (z : R) : config :=
  {| cfg_hl := 10; cfg_atr_win := 14; cfg_vol_win := 20; cfg_vov_win := 20;
     cfg_z := z; cfg_w_ewm := 0.5; cfg_w_gk := 0.3; cfg_w_atr := 0.2;
     cfg_vol_adj := 0.15; cfg_vov_adj := 0.10; cfg_tilt_gamma := 0.10 |}.

(** Three days of prices. *)
Definition three_bars : list bar :=
  [sample_bar 1 100 1000; sample_bar 2 102 1000; sample_bar 3 101 1000].

(** Three days of prices under a two-day ATR window: the third row has
    all three volatility estimators, and both z-scores still missing. *)
Definition short_atr_config : config :=
  {| cfg_hl := 10; cfg_atr_win := 2; cfg_vol_win := 20; cfg_vov_win := 20;
     cfg_z := 1.65; cfg_w_ewm := 0.5; cfg_w_gk := 0.3; cfg_w_atr := 0.2;
     cfg_vol_adj := 0.15; cfg_vov_adj := 0.10; cfg_tilt_gamma := 0.10 |}.

(** A warm-up row: the rolling columns are still missing. *)
Definition warmup_row : indicator_row :=
  {| price := sample_bar 1 100 1000;
     Ret := Fin 0; LogRet := Fin 0;
     Vol_EWMA := NaN; ATR := NaN; Vol_ATR := NaN;
     Vol_GK := Fin 0.01;
     VolZ := NaN; VoV_Z := NaN;
     ROC_1d := Fin 0; ROC_20d := NaN |}.

(** ** [fetch_prices] after the download (lines 9-12)

    The download itself is a call to an external service; its result, a
    frame or nothing, is the argument here.  A downloaded row is kept
    abstract, with the test that one of its cells is missing. *)

Section FetchPrices.

Variable raw_row : Type.
Variable isna : raw_row -> bool.

(** [DataFrame.dropna()]: the rows without a missing cell, in order. *)
Definition dropna (df : list raw_row) : list raw_row :=
  filter (fun r => negb (isna r)) df.

Definition fetch_prices (downloaded : option (list raw_row))
  : result (list raw_row) :=
  match downloaded with
  | None => ValueError "No data returned for ticker."
  | Some [] => ValueError "No data returned for ticker."
  | Some df => Ok (dropna df)
  end.

End FetchPrices.

(** ** [make_table] (lines 88-106) *)

(** One row of the projected table: the index label, the ten columns kept
    under their names and the seven rescaled to percent under a new name. *)
Record table_row : Type := mk_table_row {
  t_Date : Z;
  t_Open : fnum;
  t_High : fnum;
  t_Low : fnum;
  t_Close : fnum;
  t_Volume : fnum;
  t_Upper : fnum;
  t_Lower : fnum;
  t_Width : fnum;
  t_VolZ : fnum;
  t_VoV_Z : fnum;
  Width_pct : fnum;
  Vol_EWMA_pct : fnum;
  Vol_GK_pct : fnum;
  Vol_ATR_pct : fnum;
  Vol_Combined_pct : fnum;
  ROC_1d_pct : fnum;
  ROC_20d_pct : fnum
}.

(** The cells of the seventeen selected columns, in the order of [cols]. *)
Definition selected_cells (r : risk_row) : list fnum :=
  [Open (price (ind r)); High (price (ind r)); Low (price (ind r));
   Close (price (ind r)); Volume (price (ind r));
   Upper r; Lower r; Width r; WidthPct r;
   Vol_EWMA (ind r); Vol_GK (ind r); Vol_ATR (ind r); Vol_Combined r;
   VolZ (ind r); VoV_Z (ind r); ROC_1d (ind r); ROC_20d (ind r)].

(** [df[cols].dropna()] keeps a row when none of its selected cells is
    missing; an infinite cell is not missing. *)
Definition complete (r : risk_row) : bool :=
  forallb (fun a => negb (is_nan a)) (selected_cells r).

(** [100 * tbl[k]]. *)
Definition percent (a : fnum) : fnum := fmul (Fin 100) a.

Definition table_of (r : risk_row) : table_row :=
  {| t_Date := Date (price (ind r));
     t_Open := Open (price (ind r));
     t_High := High (price (ind r));
     t_Low := Low (price (ind r));
     t_Close := Close (price (ind r));
     t_Volume := Volume (price (ind r));
     t_Upper := Upper r;
     t_Lower := Lower r;
     t_Width := Width r;
     t_VolZ := VolZ (ind r);
     t_VoV_Z := VoV_Z (ind r);
     Width_pct := percent (WidthPct r);
     Vol_EWMA_pct := percent (Vol_EWMA (ind r));
     Vol_GK_pct := percent (Vol_GK (ind r));
     Vol_ATR_pct := percent (Vol_ATR (ind r));
     Vol_Combined_pct := percent (Vol_Combined r);
     ROC_1d_pct := percent (ROC_1d (ind r));
     ROC_20d_pct := percent (ROC_20d (ind r)) |}.

Definition make_table (df : list risk_row) : list table_row :=
  map table_of (filter complete df).

(** The cells of a table row. *)
Definition table_cells (r : table_row) : list fnum :=
  [t_Open r; t_High r; t_Low r; t_Close r; t_Volume r;
   t_Upper r; t_Lower r; t_Width r; t_VolZ r; t_VoV_Z r;
   Width_pct r; Vol_EWMA_pct r; Vol_GK_pct r; Vol_ATR_pct r;
   Vol_Combined_pct r; ROC_1d_pct r; ROC_20d_pct r].

(** ** The sidebar and the ticker field of [app.py] *)

(** Line 16: [text.upper().replace(" ", "").split(",")], on ASCII text. *)
Definition upper_char (c : ascii) : ascii :=
  let n := N_of_ascii c in
  if ((97 <=? n) && (n <=? 122))%N then ascii_of_N (n - 32) else c.

Fixpoint str_upper (s : string) : string :=
  match s with
  | EmptyString => EmptyString
  | String c s' => String (upper_char c) (str_upper s')
  end.

(** [s.replace(" ", "")]. *)
Fixpoint remove_spaces (s : string) : string :=
  match s with
  | EmptyString => EmptyString
  | String c s' =>
      if Ascii.eqb c " "%char then remove_spaces s'
      else String c (remove_spaces s')
  end.

(** [s.split(sep)] for a one-character separator: the pieces between the
    separators, empty pieces included. *)
Fixpoint split_on (sep : ascii) (s : string) : list string :=
  match s with
  | EmptyString => [EmptyString]
  | String c s' =>
      if Ascii.eqb c sep then EmptyString :: split_on sep s'
      else
        match split_on sep s' with
        | piece :: pieces => String c piece :: pieces
        | [] => [String c EmptyString]
        end
  end.

Definition parse_tickers (text : string) : list string :=
  split_on ","%char (remove_spaces (str_upper text)).

(** Lines 40-41 and 80-81: what the page does with the ticker list. *)
Inductive page : Type :=
| PerTicker (tickers : list string)
| EnterATicker.

Definition page_of (text : string) : page :=
  match parse_tickers text with
  | [] => EnterATicker
  | tickers => PerTicker tickers
  end.

(** [sep.join(pieces)]. *)
Fixpoint join (sep : ascii) (pieces : list string) : string :=
  match pieces with
  | [] => EmptyString
  | [piece] => piece
  | piece :: rest => append piece (String sep (join sep rest))
  end.

(** The number of occurrences of a character. *)
Fixpoint count_char (c : ascii) (s : string) : nat :=
  match s with
  | EmptyString => 0%nat
  | String c' s' =>
      ((if Ascii.eqb c' c then 1 else 0) + count_char c s')%nat
  end.

(** Lines 18-32: the values the sidebar widgets can deliver. *)
Definition sidebar_config (c : config) : Prop :=
  (3 <= cfg_hl c <= 60)%Z /\
  (5 <= cfg_atr_win c <= 30)%Z /\
  (10 <= cfg_vol_win c <= 60)%Z /\
  (10 <= cfg_vov_win c <= 60)%Z /\
  In (cfg_z c) [0.67; 1.0; 1.28; 1.65; 1.96; 2.33] /\
  0 <= cfg_w_ewm c <= 1 /\
  0 <= cfg_w_gk c <= 1 /\
  0 <= cfg_w_atr c <= 1 /\
  0 <= cfg_vol_adj c <= 0.5 /\
  0 <= cfg_vov_adj c <= 0.5 /\
  -0.5 <= cfg_tilt_gamma c <= 0.5.

(** ** Vocabulary of the further properties *)

(** A bar of real prices and volume. *)
Definition real_bar (b : bar) : Prop :=
  is_finite (Open b) = true /\ is_finite (High b) = true /\
  is_finite (Low b) = true /\ is_finite (Close b) = true /\
  is_finite (Volume b) = true.

(** A bar of positive real prices. *)
Definition positive_bar (b : bar) : Prop :=
  exists o h l c,
    Open b = Fin o /\ High b = Fin h /\ Low b = Fin l /\ Close b = Fin c /\
    0 < o /\ 0 < h /\ 0 < l /\ 0 < c.

(** A bar of positive real prices whose low does not exceed its high. *)
Definition ordered_bar (b : bar) : Prop :=
  positive_bar b /\ fle (Low b) (High b).

(** A cell that is missing or not negative, [+inf] included. *)
Definition nan_or_nonneg (a : fnum) : Prop :=
  a = NaN \/ fle (Fin 0) a.

(** A cell that is missing or a non-negative real. *)
Definition nan_or_nonneg_real (a : fnum) : Prop :=
  a = NaN \/ exists x, a = Fin x /\ 0 <= x.

(** ** Line 40 over binary64

    The z-score of the last row of one full window without missing cells,
    with the sample mean and the sample standard deviation (one degree of
    freedom removed) evaluated in binary64, each operation rounded. *)

Module B64.

Import PrimFloat.
Local Open Scope float_scope.

Definition sum (l : list float) : float := fold_left add l 0.

Definition count (l : list float) : float :=
  fold_left (fun n _ => n + 1) l 0.

Definition mean (l : list float) : float := sum l / count l.

Definition ssqdm (l : list float) : float :=
  fold_left (fun acc x => acc + (x - mean l) * (x - mean l)) l 0.




End B64.

(** * Properties *)

(** ** Float arithmetic *)

Lemma Rsign_pos (x : R) : 0 < x -> Rsign x = Pos.
Proof.
  intros Hx. unfold Rsign.
  destruct (total_order_T x 0) as [[Hlt | Heq] | Hgt]; try reflexivity; lra.
Qed.

Lemma Rsign_zero : Rsign 0 = Zero.
Proof.
  unfold Rsign.
  destruct (total_order_T 0 0) as [[Hlt | Heq] | Hgt]; try reflexivity; lra.
Qed.

Lemma Rsign_neg (x : R) : x < 0 -> Rsign x = Neg.
Proof.
  intros Hx. unfold Rsign.
  destruct (total_order_T x 0) as [[Hlt | Heq] | Hgt]; try reflexivity; lra.
Qed.

Lemma fmul_nan_r (a : fnum) : fmul a NaN = NaN.
Proof. destruct a; reflexivity. Qed.

Lemma fadd_nan_r (a : fnum) : fadd a NaN = NaN.
Proof. destruct a; reflexivity. Qed.

Lemma fsub_nan_r (a : fnum) : fsub a NaN = NaN.
Proof. destruct a; reflexivity. Qed.

Lemma fdiv_nan_r (a : fnum) : fdiv a NaN = NaN.
Proof. destruct a; reflexivity. Qed.

Lemma fmul_1_r (a : fnum) : fmul a (Fin 1) = a.
Proof.
  destruct a; simpl; try reflexivity.
  - rewrite Rsign_pos by lra. reflexivity.
  - rewrite Rsign_pos by lra. reflexivity.
  - f_equal. ring.
Qed.

(** A clipped cell is missing, [+inf], or a non-negative real. *)
Lemma clip_lower0_cases (a : fnum) :
  clip_lower0 a = NaN \/ clip_lower0 a = PInf \/
  exists p, clip_lower0 a = Fin p /\ 0 <= p.
Proof.
  destruct a as [ | | | x]; simpl; auto.
  - right; right. exists 0. split; [reflexivity | lra].
  - destruct (Rlt_dec x 0) as [Hlt | Hge]; right; right.
    + exists 0. split; [reflexivity | lra].
    + exists x. split; [reflexivity | lra].
Qed.

Lemma clip_lower0_nonneg (a : fnum) :
  fle (Fin 0) a -> clip_lower0 a = a.
Proof.
  destruct a as [ | | | x]; simpl; try tauto.
  intros Hx. destruct (Rlt_dec x 0); [lra | reflexivity].
Qed.

(** A band of non-negative half-width brackets its centre. *)
Lemma band_brackets_center (c w : fnum) :
  fle (Fin 0) w ->
  fsub c w <> NaN -> fadd c w <> NaN ->
  fle (fsub c w) c /\ fle c (fadd c w).
Proof.
  destruct c as [ | | | x], w as [ | | | y]; simpl;
    intros Hw Hlo Hup; try tauto; try congruence.
  lra.
Qed.

(** ** [build_risk_range] *)

(** A row of the result is [risk_range_row], under the normalised weights,
    of a row of the argument. *)
Lemma build_risk_range_In (out : list indicator_row)
  (z w_ewm w_gk w_atr vol_adj vov_adj tilt_gamma : R) (r : risk_row) :
  In r (build_risk_range out z w_ewm w_gk w_atr vol_adj vov_adj tilt_gamma)
  <->
  exists r0 : indicator_row,
    In r0 out /\
    r = risk_range_row z
          (fst (fst (normalize_weights w_ewm w_gk w_atr)))
          (snd (fst (normalize_weights w_ewm w_gk w_atr)))
          (snd (normalize_weights w_ewm w_gk w_atr))
          vol_adj vov_adj tilt_gamma r0.
Proof.
  unfold build_risk_range.
  destruct (normalize_weights w_ewm w_gk w_atr) as [[a b] c]. simpl.
  rewrite in_map_iff. split.
  - intros [r0 [Hr Hin]]. exists r0. auto.
  - intros [r0 [Hin Hr]]. exists r0. auto.
Qed.

Lemma build_risk_range_length (out : list indicator_row)
  (z w_ewm w_gk w_atr vol_adj vov_adj tilt_gamma : R) :
  length (build_risk_range out z w_ewm w_gk w_atr vol_adj vov_adj tilt_gamma)
  = length out.
Proof.
  unfold build_risk_range.
  destruct (normalize_weights w_ewm w_gk w_atr) as [[a b] c].
  apply length_map.
Qed.

Lemma normalize_weights_default :
  normalize_weights 0.5 0.3 0.2 = (0.5 / 1, 0.3 / 1, 0.2 / 1).
Proof.
  unfold normalize_weights.
  destruct (Req_dec_T (0.5 + 0.3 + 0.2) 0) as [H0 | Hne]; [reflexivity | ].
  replace (0.5 + 0.3 + 0.2) with 1 by lra. reflexivity.
Qed.

Lemma normalize_weights_zero :
  normalize_weights 0 0 0 = (0.5 / 1, 0.3 / 1, 0.2 / 1).
Proof.
  unfold normalize_weights.
  destruct (Req_dec_T (0 + 0 + 0) 0) as [H0 | Hne]; [reflexivity | lra].
Qed.

(** The sample row is a row of the frame built from it under the default
    parameters of the source. *)
Lemma sample_row_built (r0 : indicator_row) :
  In (risk_range_row 1.65 (0.5 / 1) (0.3 / 1) (0.2 / 1) 0.15 0.10 0.10 r0)
     (build_risk_range [r0] 1.65 0.5 0.3 0.2 0.15 0.10 0.10).
Proof.
  apply build_risk_range_In. exists r0. split; [left; reflexivity | ].
  rewrite normalize_weights_default. reflexivity.
Defined.

(** C2.  In every row of the result of [build_risk_range] whose inputs are
    all defined, [Upper - Lower] equals [2 * Width] and [Width] equals
    [WidthPct * Close], as equations of the embedded arithmetic. *)
Theorem band_width_equations (out : list indicator_row)
  (z w_ewm w_gk w_atr vol_adj vov_adj tilt_gamma : R) (r : risk_row) :
  In r (build_risk_range out z w_ewm w_gk w_atr vol_adj vov_adj tilt_gamma) ->
  inputs_defined (ind r) ->
  fsub (Upper r) (Lower r) = fmul (Fin 2) (Width r) /\
  Width r = fmul (WidthPct r) (Close (price (ind r))).
Proof.
  intros Hin Hdef. apply build_risk_range_In in Hin.
  destruct Hin as [r0 [_ ->]].
  set (nw := normalize_weights w_ewm w_gk w_atr).
  split; [ | reflexivity].
  destruct Hdef as (Hc & He & Hg & Ha & Hv & Hvv & Hroc). simpl in *.
  unfold vol_factor, vov_factor.
  destruct (Close (price r0)); try discriminate.
  destruct (Vol_EWMA r0); try discriminate.
  destruct (Vol_GK r0); try discriminate.
  destruct (Vol_ATR r0); try discriminate.
  destruct (VolZ r0); try discriminate.
  destruct (VoV_Z r0); try discriminate.
  destruct (ROC_20d r0); try discriminate.
  simpl.
  match goal with |- context [Rlt_dec ?a 0] => destruct (Rlt_dec a 0) end;
    simpl; f_equal; ring.
Qed.

Lemma band_width_equations_witness :
  let r := risk_range_row 1.65 (0.5 / 1) (0.3 / 1) (0.2 / 1) 0.15 0.10 0.10
             sample_row in
  fsub (Upper r) (Lower r) = fmul (Fin 2) (Width r) /\
  Width r = fmul (WidthPct r) (Close (price (ind r))).
Proof.
  intros r.
  apply (band_width_equations [sample_row] 1.65 0.5 0.3 0.2 0.15 0.10 0.10 r).
  - apply sample_row_built.
  - unfold inputs_defined. simpl. repeat split; reflexivity.
Defined.

(** C3.  With all three weights zero, [build_risk_range] returns the frame
    it returns for the weights 0.5, 0.3, 0.2, whatever the rows and the
    other parameters; and weights whose sum is not zero are normalised to
    effective weights that sum to one. *)
Theorem zero_weights_use_defaults :
  (forall (out : list indicator_row) (z vol_adj vov_adj tilt_gamma : R),
      build_risk_range out z 0 0 0 vol_adj vov_adj tilt_gamma
      = build_risk_range out z 0.5 0.3 0.2 vol_adj vov_adj tilt_gamma) /\
  (forall w_ewm w_gk w_atr : R,
      w_ewm + w_gk + w_atr <> 0 ->
      let '(a, b, c) := normalize_weights w_ewm w_gk w_atr in
      a + b + c = 1).
Proof.
  split.
  - intros out z vol_adj vov_adj tilt_gamma. unfold build_risk_range.
    rewrite normalize_weights_zero, normalize_weights_default. reflexivity.
  - intros w_ewm w_gk w_atr Hs. unfold normalize_weights.
    destruct (Req_dec_T (w_ewm + w_gk + w_atr) 0) as [H0 | Hne];
      [contradiction | ].
    field. exact Hs.
Qed.

Lemma zero_weights_use_defaults_witness :
  build_risk_range [sample_row] 1.65 0 0 0 0.15 0.10 0.10
  = build_risk_range [sample_row] 1.65 0.5 0.3 0.2 0.15 0.10 0.10 /\
  (let '(a, b, c) := normalize_weights 2 1 1 in a + b + c = 1).
Proof.
  split.
  - apply (proj1 zero_weights_use_defaults).
  - apply (proj2 zero_weights_use_defaults 2 1 1). lra.
Defined.

(** C4.  In every row of the result of [build_risk_range] whose
    [Vol_Combined] is missing, [WidthPct], [Width], [Center], [Upper] and
    [Lower] are missing too: nothing is turned into zero there.  The only
    zero substitutions behind the width are those of a missing [VolZ] or
    [VoV_Z], which leave the regime factor at its neutral value one. *)
Theorem missing_volatility_propagates (out : list indicator_row)
  (z w_ewm w_gk w_atr vol_adj vov_adj tilt_gamma : R) (r : risk_row) :
  In r (build_risk_range out z w_ewm w_gk w_atr vol_adj vov_adj tilt_gamma) ->
  (Vol_Combined r = NaN ->
   WidthPct r = NaN /\ Width r = NaN /\ Center r = NaN /\
   Upper r = NaN /\ Lower r = NaN) /\
  (VolZ (ind r) = NaN -> vol_factor vol_adj (ind r) = Fin 1) /\
  (VoV_Z (ind r) = NaN -> vov_factor vov_adj (ind r) = Fin 1).
Proof.
  intros Hin. apply build_risk_range_In in Hin.
  destruct Hin as [r0 [_ ->]].
  set (nw := normalize_weights w_ewm w_gk w_atr).
  split; [ | split].
  - simpl. intros Hvc. rewrite Hvc. simpl.
    rewrite ?fmul_nan_r, ?fadd_nan_r. repeat split; reflexivity.
  - simpl. intros Hz. unfold vol_factor. rewrite Hz. simpl. f_equal. ring.
  - simpl. intros Hz. unfold vov_factor. rewrite Hz. simpl. f_equal. ring.
Qed.

Lemma missing_volatility_propagates_witness :
  let r := risk_range_row 1.65 (0.5 / 1) (0.3 / 1) (0.2 / 1) 0.15 0.10 0.10
             warmup_row in
  WidthPct r = NaN /\ Width r = NaN /\ Center r = NaN /\
  Upper r = NaN /\ Lower r = NaN.
Proof.
  intros r.
  apply (missing_volatility_propagates [warmup_row]
           1.65 0.5 0.3 0.2 0.15 0.10 0.10 r).
  - apply sample_row_built.
  - reflexivity.
Defined.

(** In a neutral regime the width is [z * Vol_Combined] floored at
    zero. *)
Lemma neutral_regime_clip (out : list indicator_row)
  (z w_ewm w_gk w_atr vol_adj vov_adj tilt_gamma : R) (r : risk_row) :
  In r (build_risk_range out z w_ewm w_gk w_atr vol_adj vov_adj tilt_gamma) ->
  VolZ (ind r) = Fin 0 -> VoV_Z (ind r) = Fin 0 ->
  WidthPct r = clip_lower0 (fmul (Fin z) (Vol_Combined r)).
Proof.
  intros Hin Hvz Hvvz. apply build_risk_range_In in Hin.
  destruct Hin as [r0 [_ ->]].
  set (nw := normalize_weights w_ewm w_gk w_atr) in *.
  simpl in *.
  assert (Hvf : vol_factor vol_adj r0 = Fin 1).
  { unfold vol_factor. rewrite Hvz. simpl. f_equal. ring. }
  assert (Hvvf : vov_factor vov_adj r0 = Fin 1).
  { unfold vov_factor. rewrite Hvvz. simpl. f_equal. ring. }
  rewrite Hvf, Hvvf, !fmul_1_r. reflexivity.
Qed.

(** C9.  In every row of the result where [WidthPct] is defined it is not
    negative. *)
Theorem width_pct_nonneg (out : list indicator_row)
  (z w_ewm w_gk w_atr vol_adj vov_adj tilt_gamma : R) (r : risk_row) :
  In r (build_risk_range out z w_ewm w_gk w_atr vol_adj vov_adj tilt_gamma) ->
  WidthPct r <> NaN ->
  fle (Fin 0) (WidthPct r).
Proof.
  intros Hin Hdef. apply build_risk_range_In in Hin.
  destruct Hin as [r0 [_ ->]]. row_fields.
  match goal with
  | |- fle _ (clip_lower0 ?a) =>
      destruct (clip_lower0_cases a) as [Hn | [Hp | [p [Hp Hp0]]]]
  end.
  - contradiction.
  - rewrite Hp. exact I.
  - rewrite Hp. exact Hp0.
Qed.

Lemma width_pct_nonneg_witness :
  fle (Fin 0)
      (WidthPct (risk_range_row (-1) (0.5 / 1) (0.3 / 1) (0.2 / 1)
                   0.15 0.10 0.10 sample_row)).
Proof.
  apply (width_pct_nonneg [sample_row] (-1) 0.5 0.3 0.2 0.15 0.10 0.10).
  - apply build_risk_range_In. exists sample_row.
    split; [left; reflexivity | ].
    rewrite normalize_weights_default. reflexivity.
  - simpl. unfold vol_factor, vov_factor. simpl.
    match goal with |- context [Rlt_dec ?a 0] => destruct (Rlt_dec a 0) end;
      discriminate.
Defined.

(** C10.  In every row of the result where [Lower], [Center] and [Upper]
    are defined and the close is positive, [Lower <= Center <= Upper]. *)
Theorem band_ordered (out : list indicator_row)
  (z w_ewm w_gk w_atr vol_adj vov_adj tilt_gamma : R) (r : risk_row) :
  In r (build_risk_range out z w_ewm w_gk w_atr vol_adj vov_adj tilt_gamma) ->
  Lower r <> NaN -> Center r <> NaN -> Upper r <> NaN ->
  fgt (Close (price (ind r))) (Fin 0) = true ->
  fle (Lower r) (Center r) /\ fle (Center r) (Upper r).
Proof.
  intros Hin Hlo Hce Hup Hclose. apply build_risk_range_In in Hin.
  destruct Hin as [r0 [_ ->]]. row_fields.
  match type of Hup with
  | context [clip_lower0 ?a] => set (wp := clip_lower0 a) in *;
      pose proof (clip_lower0_cases a) as Hwp; fold wp in Hwp; clearbody wp
  end.
  set (g := fmul (Fin tilt_gamma) (fillna0 (ROC_20d r0))) in *. clearbody g.
  apply band_brackets_center; try assumption.
  destruct Hwp as [Hn | [Hp | [p [Hp Hp0]]]]; rewrite ?Hn, ?Hp in *.
  - cbn [fmul] in Hup. rewrite fmul_nan_r, !fadd_nan_r in Hup.
    contradiction.
  - destruct (Close (price r0)) as [ | | | c]; simpl in *; try discriminate.
    + exact I.
    + destruct (Rlt_dec 0 c) as [Hc | Hc]; [ | discriminate].
      rewrite Rsign_pos by exact Hc. exact I.
  - destruct (Close (price r0)) as [ | | | c]; cbn [fmul fgt] in *;
      try discriminate.
    + destruct (Req_dec_T p 0) as [-> | Hne].
      * rewrite Rsign_zero in *. simpl in Hup.
        rewrite fmul_nan_r, !fadd_nan_r in Hup. contradiction.
      * rewrite (Rsign_pos p) in * by lra. exact I.
    + destruct (Rlt_dec 0 c) as [Hc | Hc]; [ | discriminate].
      apply Rmult_le_pos; lra.
Qed.

Lemma band_ordered_witness :
  let r := risk_range_row 1.65 (0.5 / 1) (0.3 / 1) (0.2 / 1) 0.15 0.10 0.10
             sample_row in
  fle (Lower r) (Center r) /\ fle (Center r) (Upper r).
Proof.
  intros r.
  apply (band_ordered [sample_row] 1.65 0.5 0.3 0.2 0.15 0.10 0.10 r).
  - apply sample_row_built.
  - unfold r. simpl. unfold vol_factor, vov_factor. simpl.
    match goal with |- context [Rlt_dec ?a 0] => destruct (Rlt_dec a 0) end;
      discriminate.
  - unfold r. simpl. unfold vol_factor, vov_factor. simpl.
    match goal with |- context [Rlt_dec ?a 0] => destruct (Rlt_dec a 0) end;
      discriminate.
  - unfold r. simpl. unfold vol_factor, vov_factor. simpl.
    match goal with |- context [Rlt_dec ?a 0] => destruct (Rlt_dec a 0) end;
      discriminate.
  - simpl. destruct (Rlt_dec 0 100) as [H | H]; [reflexivity | lra].
Defined.

(** ** Column lengths *)

Lemma map2_length {A B C : Type} (f : A -> B -> C) (l : list A)
  (l' : list B) :
  length (map2 f l l') = Nat.min (length l) (length l').
Proof.
  revert l'. induction l as [ | x l IH]; intros [ | y l']; simpl; auto.
Qed.

Lemma shift_length (n : nat) (xs : column) :
  length (shift n xs) = length xs.
Proof.
  unfold shift. rewrite length_firstn, length_app, repeat_length. lia.
Qed.

Lemma diff_length (xs : column) : length (diff xs) = length xs.
Proof.
  unfold diff. rewrite map2_length, shift_length. lia.
Qed.

Lemma pct_change_length (n : nat) (xs : column) :
  length (pct_change n xs) = length xs.
Proof.
  unfold pct_change. rewrite map2_length, shift_length. lia.
Qed.

Lemma rolling_mean_length (w minp : nat) (xs : column) :
  length (rolling_mean w minp xs) = length xs.
Proof. unfold rolling_mean. rewrite length_map, length_seq. reflexivity. Qed.

Lemma rolling_std_length (w minp : nat) (xs : column) :
  length (rolling_std w minp xs) = length xs.
Proof.
  unfold rolling_std, rolling_var.
  rewrite !length_map, length_seq. reflexivity.
Qed.

Lemma ewm_scan_length (alpha : R) (minp : nat) (xs : list (option R)) :
  forall st, length (ewm_scan alpha minp st xs) = length xs.
Proof.
  induction xs as [ | cur rest IH]; intros st; simpl; auto.
Qed.

Lemma ewm_std_length (alpha : R) (xs : column) :
  length (ewm_std alpha xs) = length xs.
Proof.
  unfold ewm_std, ewmcov. rewrite length_map.
  destruct xs as [ | x0 rest]; simpl; [reflexivity | ].
  rewrite ewm_scan_length, length_map. reflexivity.
Qed.

Lemma zscore_length (win : nat * nat) (xs : column) :
  length (zscore win xs) = length xs.
Proof.
  unfold zscore.
  rewrite !map2_length, rolling_mean_length, rolling_std_length. lia.
Qed.

(** Every column added by [compute_indicators] has one cell per row. *)
Lemma indicator_columns_length (alpha : R) (atr vol vov : nat * nat)
  (df : list bar) :
  length (Ret_col df) = length df /\
  length (LogRet_col df) = length df /\
  length (Vol_EWMA_col alpha df) = length df /\
  length (ATR_col atr df) = length df /\
  length (Vol_ATR_col atr df) = length df /\
  length (Vol_GK_col df) = length df /\
  length (VolZ_col vol df) = length df /\
  length (VoV_Z_col alpha vov df) = length df /\
  length (ROC_20d_col df) = length df.
Proof.
  assert (Hlog : length (LogRet_col df) = length df).
  { unfold LogRet_col. rewrite diff_length, !length_map. reflexivity. }
  assert (Hewm : length (Vol_EWMA_col alpha df) = length df).
  { unfold Vol_EWMA_col. rewrite ewm_std_length. exact Hlog. }
  assert (Hatr : length (ATR_col atr df) = length df).
  { unfold ATR_col, tr_col.
    rewrite rolling_mean_length, map2_length, shift_length, length_map. lia. }
  repeat split; try assumption.
  - unfold Ret_col. rewrite pct_change_length, length_map. reflexivity.
  - unfold Vol_ATR_col. rewrite map2_length, Hatr, length_map. lia.
  - unfold Vol_GK_col. rewrite length_map. reflexivity.
  - unfold VolZ_col. rewrite zscore_length, length_map. reflexivity.
  - unfold VoV_Z_col, vov_col. rewrite zscore_length, rolling_std_length.
    exact Hewm.
  - unfold ROC_20d_col. rewrite pct_change_length, length_map. reflexivity.
Qed.

Lemma map_snd_combine_seq {A : Type} (l : list A) (start : nat) :
  map snd (combine (seq start (length l)) l) = l.
Proof.
  revert start. induction l as [ | x l IH]; intros start; simpl;
    [reflexivity | ].
  rewrite IH. reflexivity.
Qed.

Lemma indicator_frame_length (alpha : R) (atr vol vov : nat * nat)
  (df : list bar) :
  length (indicator_frame alpha atr vol vov df) = length df.
Proof.
  unfold indicator_frame.
  rewrite length_map, length_combine, length_seq. lia.
Qed.

Lemma indicator_frame_prices (alpha : R) (atr vol vov : nat * nat)
  (df : list bar) :
  map price (indicator_frame alpha atr vol vov df) = df.
Proof.
  unfold indicator_frame. rewrite map_map.
  transitivity (map snd (combine (seq 0 (length df)) df)).
  - apply map_ext. intros [t b]. reflexivity.
  - apply map_snd_combine_seq.
Qed.

(** ** Which configurations the library calls accept *)

Lemma rolling_ok (w : Z) (m : option Z) :
  (0 <= w)%Z -> (m = None \/ m = Some w) -> rolling w m = Ok (window w).
Proof.
  intros Hw [-> | ->]; unfold rolling, window; simpl.
  - destruct (Z.ltb_spec w 0); [lia | reflexivity].
  - destruct (Z.ltb_spec w 0); [lia | ].
    rewrite Z.ltb_irrefl. simpl.
    destruct (Z.ltb_spec w 0); [lia | reflexivity].
Qed.

Lemma rolling_error (w : Z) (m : option Z) :
  (w < 0)%Z -> (m = None \/ m = Some w) -> is_error (rolling w m) = true.
Proof.
  intros Hw [-> | ->]; unfold rolling; simpl.
  - destruct (Z.ltb_spec w 0); [reflexivity | lia].
  - destruct (Z.ltb_spec w 0); [reflexivity | lia].
Qed.

Lemma compute_indicators_accepted (df : list bar)
  (hl atr_win vol_win vov_win : Z) :
  accepted hl atr_win vol_win vov_win -> df <> [] ->
  compute_indicators df hl atr_win vol_win vov_win
  = Ok (indicator_frame (ewm_alpha hl) (window atr_win) (window vol_win)
          (window vov_win) df).
Proof.
  intros (Hhl & Ha & Hv & Hvv) Hdf. unfold compute_indicators, ewm.
  destruct (Z.leb_spec hl 0); [lia | ]. simpl.
  rewrite !rolling_ok by auto.
  destruct df as [ | b df]; [contradiction | reflexivity].
Qed.

Lemma compute_indicators_rejected (df : list bar)
  (hl atr_win vol_win vov_win : Z) :
  ~ accepted hl atr_win vol_win vov_win ->
  is_error (compute_indicators df hl atr_win vol_win vov_win) = true.
Proof.
  intros Hrej. unfold compute_indicators, ewm.
  destruct (Z.leb_spec hl 0) as [Hhl | Hhl]; [reflexivity | ]. simpl.
  destruct (Z.lt_ge_cases atr_win 0) as [Ha | Ha].
  { pose proof (rolling_error atr_win (Some atr_win) Ha (or_intror eq_refl)) as He.
    destruct (rolling atr_win (Some atr_win)); [discriminate He | reflexivity]. }
  rewrite rolling_ok by auto. simpl.
  destruct df as [ | b df]; [reflexivity | ]. simpl.
  destruct (Z.lt_ge_cases vol_win 0) as [Hv | Hv].
  { pose proof (rolling_error vol_win None Hv (or_introl eq_refl)) as He.
    destruct (rolling vol_win None); [discriminate He | reflexivity]. }
  rewrite rolling_ok by auto. simpl.
  destruct (Z.lt_ge_cases vov_win 0) as [Hvv | Hvv].
  { pose proof (rolling_error vov_win None Hvv (or_introl eq_refl)) as He.
    destruct (rolling vov_win None); [discriminate He | reflexivity]. }
  exfalso. apply Hrej. unfold accepted. lia.
Qed.

(** A frame without rows is never returned: the assignment of line 31
    raises, unless an earlier library call already has. *)
Lemma compute_indicators_empty (hl atr_win vol_win vov_win : Z) :
  is_error (compute_indicators [] hl atr_win vol_win vov_win) = true.
Proof.
  unfold compute_indicators.
  destruct (ewm hl); [ | reflexivity]. simpl.
  destruct (rolling atr_win (Some atr_win)); reflexivity.
Qed.

Lemma compute_indicators_Ok_nonempty (df : list bar)
  (hl atr_win vol_win vov_win : Z) (out : list indicator_row) :
  compute_indicators df hl atr_win vol_win vov_win = Ok out -> df <> [].
Proof.
  intros Hrun ->.
  pose proof (compute_indicators_empty hl atr_win vol_win vov_win) as He.
  rewrite Hrun in He. discriminate He.
Qed.

Lemma compute_indicators_Ok_inv (df : list bar)
  (hl atr_win vol_win vov_win : Z) (out : list indicator_row) :
  compute_indicators df hl atr_win vol_win vov_win = Ok out ->
  accepted hl atr_win vol_win vov_win /\
  out = indicator_frame (ewm_alpha hl) (window atr_win) (window vol_win)
          (window vov_win) df.
Proof.
  intros Hrun.
  pose proof (compute_indicators_Ok_nonempty _ _ _ _ _ _ Hrun) as Hdf.
  assert (Hacc : accepted hl atr_win vol_win vov_win).
  { unfold accepted.
    destruct (Z.lt_ge_cases 0 hl), (Z.le_gt_cases 0 atr_win),
      (Z.le_gt_cases 0 vol_win), (Z.le_gt_cases 0 vov_win);
      try (repeat split; assumption);
      exfalso;
      assert (Hrej : ~ accepted hl atr_win vol_win vov_win)
        by (unfold accepted; lia);
      apply (compute_indicators_rejected df) in Hrej;
      rewrite Hrun in Hrej; discriminate. }
  split; [exact Hacc | ].
  rewrite (compute_indicators_accepted df _ _ _ _ Hacc Hdf) in Hrun.
  injection Hrun as <-. reflexivity.
Qed.

(** C1.  On every series with at least one row, under every
    configuration the library calls accept, [compute_indicators] returns a
    frame with one row per input row, carrying the input rows (and so
    their dates) in their order.  On the frame without rows it returns
    nothing, under any configuration: with the default windows the
    assignment of line 31 raises. *)
Theorem compute_indicators_rows_unless_empty :
  (forall (df : list bar) (hl atr_win vol_win vov_win : Z),
      df <> [] -> accepted hl atr_win vol_win vov_win ->
      exists out,
        compute_indicators df hl atr_win vol_win vov_win = Ok out /\
        length out = length df /\
        map price out = df /\
        map (fun r => Date (price r)) out = map Date df) /\
  (forall hl atr_win vol_win vov_win : Z,
      is_error (compute_indicators [] hl atr_win vol_win vov_win) = true) /\
  compute_indicators [] 10%Z 14%Z 20%Z 20%Z
  = ValueError
      "Cannot set a DataFrame with multiple columns to the single column ATR".
Proof.
  split; [ | split].
  - intros df hl atr_win vol_win vov_win Hdf Hacc.
    eexists. split; [apply compute_indicators_accepted; assumption | ].
    split; [apply indicator_frame_length | ].
    split; [apply indicator_frame_prices | ].
    rewrite <- (indicator_frame_prices (ewm_alpha hl) (window atr_win)
                  (window vol_win) (window vov_win) df) at 2.
    rewrite map_map. reflexivity.
  - apply compute_indicators_empty.
  - reflexivity.
Qed.

Lemma compute_indicators_rows_unless_empty_witness :
  exists out,
    compute_indicators three_bars 10 14 20 20 = Ok out /\
    length out = length three_bars /\
    map price out = three_bars /\
    map (fun r => Date (price r)) out = map Date three_bars.
Proof.
  apply (proj1 compute_indicators_rows_unless_empty
           three_bars 10%Z 14%Z 20%Z 20%Z).
  - discriminate.
  - unfold accepted. lia.
Defined.

(** ** The core's failures *)

(** C7, as the code has it.  The core fails, with the error of the
    library call, for a half-life that is not positive and for a negative
    window.  A window of zero and a negative confidence do not make it
    fail, no more than blend weights that sum to zero: on a series with at
    least one row the core then returns a result. *)
Theorem core_fails_on_rejected_windows (df : list bar) (c : config) :
  ((cfg_hl c <= 0 \/ cfg_atr_win c < 0 \/ cfg_vol_win c < 0 \/
    cfg_vov_win c < 0)%Z ->
   is_error (run_core df c) = true) /\
  (df <> [] ->
   (0 < cfg_hl c /\ 0 <= cfg_atr_win c /\ 0 <= cfg_vol_win c /\
    0 <= cfg_vov_win c)%Z ->
   is_error (run_core df c) = false).
Proof.
  unfold run_core. split.
  - intros Hbad.
    assert (Hrej : ~ accepted (cfg_hl c) (cfg_atr_win c) (cfg_vol_win c)
                     (cfg_vov_win c)) by (unfold accepted; lia).
    apply (compute_indicators_rejected df) in Hrej.
    destruct (compute_indicators df (cfg_hl c) (cfg_atr_win c)
                (cfg_vol_win c) (cfg_vov_win c));
      [discriminate Hrej | reflexivity].
  - intros Hdf Hacc.
    rewrite (compute_indicators_accepted df _ _ _ _ Hacc Hdf). reflexivity.
Qed.

Lemma core_fails_on_rejected_windows_witness :
  is_error (run_core three_bars
              {| cfg_hl := 0; cfg_atr_win := 14; cfg_vol_win := 20;
                 cfg_vov_win := 20; cfg_z := 1.65; cfg_w_ewm := 0.5;
                 cfg_w_gk := 0.3; cfg_w_atr := 0.2; cfg_vol_adj := 0.15;
                 cfg_vov_adj := 0.10; cfg_tilt_gamma := 0.10 |}) = true /\
  is_error (run_core three_bars
              {| cfg_hl := 10; cfg_atr_win := 0; cfg_vol_win := 20;
                 cfg_vov_win := 20; cfg_z := -1; cfg_w_ewm := 0;
                 cfg_w_gk := 0; cfg_w_atr := 0; cfg_vol_adj := 0.15;
                 cfg_vov_adj := 0.10; cfg_tilt_gamma := 0.10 |}) = false.
Proof.
  split.
  - apply (proj1 (core_fails_on_rejected_windows three_bars _)).
    simpl. lia.
  - apply (proj2 (core_fails_on_rejected_windows three_bars _)).
    + discriminate.
    + simpl. lia.
Defined.

(** C7 as stated fails: with the confidence [z = -1] and the default
    windows the core returns a frame, and with an ATR window of zero as
    well. *)
Lemma core_fails_on_rejected_windows_counterexample :
  (cfg_z (default_config (-1)) < 0 /\
   is_error (run_core three_bars (default_config (-1))) = false) /\
  (let c := {| cfg_hl := 10; cfg_atr_win := 0; cfg_vol_win := 20;
               cfg_vov_win := 20; cfg_z := 1.65; cfg_w_ewm := 0.5;
               cfg_w_gk := 0.3; cfg_w_atr := 0.2; cfg_vol_adj := 0.15;
               cfg_vov_adj := 0.10; cfg_tilt_gamma := 0.10 |} in
   (cfg_atr_win c <= 0)%Z /\ is_error (run_core three_bars c) = false).
Proof.
  split.
  - split; [simpl; lra | ].
    unfold run_core.
    rewrite compute_indicators_accepted;
      [reflexivity | unfold accepted; simpl; lia | discriminate].
  - split; [simpl; lia | ].
    unfold run_core.
    rewrite compute_indicators_accepted;
      [reflexivity | unfold accepted; simpl; lia | discriminate].
Qed.

(** ** Cells of derived columns *)

Lemma cell_overflow (c : column) (t : nat) :
  (length c <= t)%nat -> cell c t = NaN.
Proof. intros Hlen. unfold cell. apply nth_overflow. exact Hlen. Qed.

Lemma cell_map2 (f : fnum -> fnum -> fnum) (a b : column) (t : nat) :
  (t < length a)%nat -> (t < length b)%nat ->
  cell (map2 f a b) t = f (cell a t) (cell b t).
Proof.
  unfold cell. revert b t.
  induction a as [ | x a IH]; intros [ | y b] [ | t] Ha Hb; simpl in *;
    try lia; try reflexivity.
  apply IH; lia.
Qed.

Lemma cell_map_seq (f : nat -> fnum) (n t : nat) :
  (t < n)%nat -> cell (map f (seq 0 n)) t = f t.
Proof.
  intros Ht. unfold cell.
  rewrite (nth_indep _ NaN (f 0%nat))
    by (rewrite length_map, length_seq; exact Ht).
  rewrite map_nth, seq_nth by exact Ht. reflexivity.
Qed.

Lemma cell_map_zsqrt (c : column) (t : nat) :
  cell (map zsqrt c) t = zsqrt (cell c t).
Proof. unfold cell. change NaN with (zsqrt NaN) at 1. apply map_nth. Qed.

Lemma cell_rolling_mean (w minp : nat) (xs : column) (t : nat) :
  (t < length xs)%nat ->
  cell (rolling_mean w minp xs) t
  = calc_mean minp (observations (window_at w t xs)).
Proof. intros Ht. unfold rolling_mean. rewrite cell_map_seq; auto. Qed.

Lemma cell_rolling_std (w minp : nat) (xs : column) (t : nat) :
  (t < length xs)%nat ->
  cell (rolling_std w minp xs) t
  = zsqrt (calc_var minp 1 (observations (window_at w t xs))).
Proof.
  intros Ht. unfold rolling_std, rolling_var.
  rewrite cell_map_zsqrt, cell_map_seq; auto.
Qed.

Lemma cell_zscore (win : nat * nat) (xs : column) (t : nat) :
  (t < length xs)%nat ->
  cell (zscore win xs) t
  = fdiv (fsub (cell xs t) (cell (rolling_mean (fst win) (snd win) xs) t))
         (cell (rolling_std (fst win) (snd win) xs) t).
Proof.
  intros Ht. unfold zscore.
  rewrite cell_map2;
    rewrite ?map2_length, ?rolling_mean_length, ?rolling_std_length;
    try lia.
  rewrite cell_map2; rewrite ?rolling_mean_length; try lia.
  reflexivity.
Qed.

(** ** Windows and their observations *)

Lemma observations_length (l : column) :
  (length (observations l) <= length l)%nat.
Proof.
  induction l as [ | a l IH]; simpl; [lia | ].
  destruct a; simpl; lia.
Qed.

(** A window with as many observations as cells has only real cells. *)
Lemma observations_full (l : column) :
  length (observations l) = length l ->
  forall a, In a l -> exists x, a = Fin x /\ In x (observations l).
Proof.
  induction l as [ | b l IH]; intros Hlen a Hin; [contradiction | ].
  pose proof (observations_length l) as Hle.
  destruct b as [ | | | y]; simpl in Hlen; try lia.
  simpl. injection Hlen as Hlen. destruct Hin as [<- | Hin].
  - exists y. auto.
  - destruct (IH Hlen a Hin) as [x [Hx Hxin]]. exists x. auto.
Qed.

Lemma window_at_length (w t : nat) (xs : column) :
  (length (window_at w t xs) <= w)%nat.
Proof.
  unfold window_at. rewrite length_skipn, length_firstn. lia.
Qed.

(** The window that ends at [t] contains the cell at [t]. *)
Lemma window_at_last (w t : nat) (xs : column) :
  (0 < w)%nat -> (t < length xs)%nat -> In (cell xs t) (window_at w t xs).
Proof.
  intros Hw Ht. unfold window_at, cell.
  replace (nth t xs NaN)
    with (nth (t - (t + 1 - w)) (skipn (t + 1 - w) (firstn (t + 1) xs)) NaN).
  - apply nth_In. rewrite length_skipn, length_firstn. lia.
  - rewrite nth_skipn, nth_firstn.
    replace (t + 1 - w + (t - (t + 1 - w)))%nat with t by lia.
    destruct (Nat.ltb_spec t (t + 1)); [reflexivity | lia].
Qed.

(** ** Sums of squared deviations *)

Lemma Rsum_sq_nonneg (m : R) (l : list R) :
  0 <= Rsum (map (fun x => (x - m) * (x - m)) l).
Proof.
  induction l as [ | y l IH]; simpl; [lra | ].
  pose proof (Rle_0_sqr (y - m)) as Hsq. unfold Rsqr in Hsq. lra.
Qed.

Lemma Rsum_sq_zero (m : R) (l : list R) :
  Rsum (map (fun x => (x - m) * (x - m)) l) = 0 ->
  forall x, In x l -> x = m.
Proof.
  induction l as [ | y l IH]; simpl; intros Hsum x Hin; [contradiction | ].
  pose proof (Rle_0_sqr (y - m)) as Hsq. unfold Rsqr in Hsq.
  pose proof (Rsum_sq_nonneg m l) as Hrest.
  destruct Hin as [<- | Hin].
  - assert (H0 : (y - m) * (y - m) = 0) by lra.
    apply Rmult_integral in H0. lra.
  - apply IH; [lra | exact Hin].
Qed.

Lemma zsqrt_zero (v : R) : v = 0 -> zsqrt (Fin v) = Fin 0.
Proof.
  intros ->. simpl. destruct (Rlt_dec 0 0); [reflexivity | ].
  rewrite sqrt_0. reflexivity.
Qed.

(** A rolling standard deviation of zero means a full window of equal
    observations. *)
Lemma zero_std_constant_window (w : nat) (obs : list R) :
  zsqrt (calc_var w 1 obs) = Fin 0 ->
  (w <= length obs)%nat /\ (1 < length obs)%nat /\
  forall x, In x obs -> x = Rmean obs.
Proof.
  unfold calc_var. intros Hstd.
  destruct (Nat.leb_spec (Nat.max w 1) (length obs)) as [Hminp | Hminp];
    [ | discriminate Hstd].
  destruct (Nat.ltb_spec 1 (length obs)) as [Hddof | Hddof];
    [ | discriminate Hstd].
  simpl in Hstd.
  destruct (Nat.eqb_spec (length obs) 1) as [H1 | H1]; [lia | ].
  split; [lia | ]. split; [exact Hddof | ].
  assert (Hden : 0 < INR (length obs) - 1).
  { apply lt_1_INR in Hddof. lra. }
  assert (Hnum : 0 <= ssqdm obs) by apply Rsum_sq_nonneg.
  assert (Hvar : 0 <= ssqdm obs / (INR (length obs) - 1)).
  { apply Rmult_le_pos; [exact Hnum | ].
    apply Rlt_le, Rinv_0_lt_compat. exact Hden. }
  cbn [zsqrt] in Hstd.
  destruct (Rlt_dec (ssqdm obs / (INR (length obs) - 1)) 0) as [Hneg | _];
    [lra | ].
  injection Hstd as Hsqrt. apply sqrt_eq_0 in Hsqrt; [ | exact Hvar].
  apply Rsum_sq_zero.
  unfold Rdiv in Hsqrt. apply Rmult_integral in Hsqrt.
  destruct Hsqrt as [H0 | Hinv]; [exact H0 | ].
  apply Rinv_neq_0_compat in Hinv; [contradiction | lra].
Qed.

(** The z-score of a cell is missing when its window is incomplete, and
    also when the rolling standard deviation over its window is zero: the
    numerator is then zero as well, and [0 / 0] is NaN. *)
Lemma zscore_undefined (w : nat) (xs : column) (t : nat) :
  window_incomplete w t xs \/ cell (rolling_std w w xs) t = Fin 0 ->
  cell (zscore (w, w) xs) t = NaN.
Proof.
  intros Hcase.
  destruct (Nat.lt_ge_cases t (length xs)) as [Ht | Ht];
    [ | apply cell_overflow; rewrite zscore_length; exact Ht].
  rewrite cell_zscore by exact Ht. cbn [fst snd].
  destruct Hcase as [Hinc | Hstd].
  - rewrite cell_rolling_mean by exact Ht. unfold calc_mean.
    unfold window_incomplete in Hinc.
    destruct (Nat.leb_spec w (length (observations (window_at w t xs))));
      [lia | ].
    simpl. rewrite fsub_nan_r. reflexivity.
  - rewrite Hstd. rewrite cell_rolling_std in Hstd by exact Ht.
    apply zero_std_constant_window in Hstd.
    destruct Hstd as (Hw & H1 & Hconst).
    set (win := window_at w t xs) in *.
    pose proof (observations_length win) as Hobs.
    pose proof (window_at_length w t xs) as Hwin. fold win in Hwin.
    assert (Hfull : length (observations win) = length win) by lia.
    assert (Hin : In (cell xs t) win).
    { apply window_at_last; [lia | exact Ht]. }
    destruct (observations_full win Hfull _ Hin) as [x [Hx Hxin]].
    rewrite cell_rolling_mean by exact Ht. fold win. unfold calc_mean.
    destruct (Nat.leb_spec w (length (observations win))); [ | lia].
    destruct (Nat.ltb_spec 0 (length (observations win))); [ | lia].
    rewrite Hx. simpl.
    destruct (Req_dec_T 0 0) as [_ | Hne]; [ | contradiction].
    rewrite <- (Hconst x Hxin).
    replace (x - x) with 0 by ring. rewrite Rsign_zero. reflexivity.
Qed.

(** ** Rows of the indicator frame *)

Lemma nth_error_combine_seq {A : Type} (l : list A) (start t k : nat)
  (a : A) :
  nth_error (combine (seq start (length l)) l) t = Some (k, a) ->
  k = (start + t)%nat /\ nth_error l t = Some a.
Proof.
  revert start t. induction l as [ | x l IH]; intros start t Hnth.
  - destruct t; discriminate Hnth.
  - destruct t as [ | t]; simpl in Hnth.
    + injection Hnth as <- <-. split; [lia | reflexivity].
    + apply IH in Hnth. destruct Hnth as [-> Hnth].
      split; [lia | exact Hnth].
Qed.

(** Row [t] of the frame holds cell [t] of each column. *)
Lemma indicator_frame_nth_error (alpha : R) (atr vol vov : nat * nat)
  (df : list bar) (t : nat) (r : indicator_row) :
  nth_error (indicator_frame alpha atr vol vov df) t = Some r ->
  nth_error df t = Some (price r) /\
  Vol_EWMA r = cell (Vol_EWMA_col alpha df) t /\
  VolZ r = cell (VolZ_col vol df) t /\
  VoV_Z r = cell (VoV_Z_col alpha vov df) t.
Proof.
  unfold indicator_frame. rewrite nth_error_map.
  destruct (nth_error (combine (seq 0 (length df)) df) t) as [[k b] | ]
    eqn:Hnth; [ | discriminate].
  apply nth_error_combine_seq in Hnth. destruct Hnth as [-> Hb].
  simpl. intros Hr. injection Hr as <-. simpl. auto.
Qed.

(** ** The z-scores *)




(** ** The exponentially weighted volatility *)

(** A positive half-life gives a weight strictly between zero and one. *)
Lemma ewm_alpha_range (hl : Z) :
  (0 < hl)%Z -> 0 < ewm_alpha hl < 1.
Proof.
  intros Hhl. unfold ewm_alpha.
  set (d := 1 - exp (ln 0.5 / IZR hl)).
  assert (Hd : 0 < d < 1).
  { unfold d.
    assert (Hln : ln 0.5 < 0).
    { replace 0.5 with (/ 2) by lra. rewrite ln_Rinv by lra.
      pose proof ln_lt_2. lra. }
    assert (Hz : 0 < IZR hl) by (apply (IZR_lt 0 hl); exact Hhl).
    assert (Hq : ln 0.5 / IZR hl < 0).
    { unfold Rdiv. apply Rinv_0_lt_compat in Hz. nra. }
    pose proof (exp_increasing _ _ Hq) as Hexp. rewrite exp_0 in Hexp.
    pose proof (exp_pos (ln 0.5 / IZR hl)). lra. }
  replace (1 / (1 + (1 / d - 1))) with d by (field; lra).
  exact Hd.
Qed.

Lemma ewm_step_steady (alpha : R) (st : ewm_state) (x : R) :
  0 < alpha < 1 -> ewm_steady st ->
  ewm_steady (ewm_step alpha st (Some x)) /\
  sum_wt2 (ewm_step alpha st (Some x)) < 1.
Proof.
  intros Ha ([m Hm] & Hsw & How & Hsw2 & Hn).
  unfold ewm_step. rewrite Hm, Hsw, How. cbn [sum_wt sum_wt2 old_wt].
  assert (Hone : 1 * (1 - alpha) + alpha = 1) by ring.
  rewrite !Hone.
  assert (Hlt : (sum_wt2 st * ((1 - alpha) * (1 - alpha)) + alpha * alpha)
                / (1 * 1) < 1).
  { replace ((sum_wt2 st * ((1 - alpha) * (1 - alpha)) + alpha * alpha)
             / (1 * 1))
      with (sum_wt2 st * ((1 - alpha) * (1 - alpha)) + alpha * alpha)
      by (field; lra).
    assert (Hsq : 0 <= (1 - alpha) * (1 - alpha)) by nra.
    assert (Hold : sum_wt2 st * ((1 - alpha) * (1 - alpha))
                   <= 1 * ((1 - alpha) * (1 - alpha))).
    { apply Rmult_le_compat_r; assumption. }
    assert (Hmix : 0 < alpha * (1 - alpha)).
    { apply Rmult_lt_0_compat; lra. }
    lra. }
  split; [ | exact Hlt].
  unfold ewm_steady. cbn [mean_x sum_wt sum_wt2 old_wt nobs].
  split; [eexists; reflexivity | ].
  split; [field | ].
  split; [reflexivity | ].
  split; [lra | simpl; lia].
Qed.

Lemma ewm_out_defined (st : ewm_state) :
  ewm_steady st -> sum_wt2 st < 1 -> is_finite (ewm_out 1 st) = true.
Proof.
  intros (_ & Hsw & _ & _ & Hn) Hlt. unfold ewm_out.
  destruct (Nat.leb_spec 1 (nobs st)); [ | lia].
  rewrite Hsw.
  destruct (Rlt_dec 0 (1 * 1 - sum_wt2 st)); [reflexivity | lra].
Qed.

Lemma ewm_scan_defined (alpha : R) (xs : list R) :
  0 < alpha < 1 ->
  forall st, ewm_steady st ->
  Forall (fun a => is_finite a = true) (ewm_scan alpha 1 st (map Some xs)).
Proof.
  intros Ha. induction xs as [ | x xs IH]; intros st Hst; simpl.
  - constructor.
  - destruct (ewm_step_steady alpha st x Ha Hst) as [Hst' Hlt].
    constructor.
    + apply ewm_out_defined; assumption.
    + apply IH. exact Hst'.
Qed.

(** The scan yields no variance before it has seen two observations: the
    first two cells are missing whenever the first input is. *)
Lemma ewmcov_first_two (alpha : R) (xs : list (option R)) (t : nat) :
  (t < 2)%nat -> cell (ewmcov alpha 1 (None :: xs)) t = NaN.
Proof.
  intros Ht. destruct t as [ | [ | t]]; [reflexivity | | lia].
  destruct xs as [ | cur xs]; [reflexivity | ].
  unfold cell. simpl. unfold ewm_out.
  destruct cur as [x | ]; simpl; [ | reflexivity].
  destruct (Rlt_dec 0 (1 * 1 - 1)); [lra | reflexivity].
Qed.

Lemma ewmcov_from_third (alpha : R) (x : R) (xs : list R) (t : nat) :
  0 < alpha < 1 -> (t < length xs)%nat ->
  is_finite (cell (ewmcov alpha 1 (None :: Some x :: map Some xs))
               (S (S t))) = true.
Proof.
  intros Ha Ht. unfold cell. simpl.
  set (st := ewm_step alpha (ewm_init None) (Some x)).
  assert (Hst : ewm_steady st).
  { unfold st, ewm_steady. simpl.
    split; [eexists; reflexivity | ].
    repeat split; try reflexivity; try lra; lia. }
  pose proof (ewm_scan_defined alpha xs Ha st Hst) as Hall.
  rewrite Forall_forall in Hall. apply Hall. apply nth_In.
  rewrite ewm_scan_length, length_map. exact Ht.
Qed.

(** The log-return column starts with a missing cell. *)
Lemma LogRet_first (b : bar) (df : list bar) :
  exists rest, LogRet_col (b :: df) = NaN :: rest.
Proof.
  unfold LogRet_col, diff, shift. simpl.
  rewrite fsub_nan_r. eexists. reflexivity.
Qed.

Lemma finite_differences (ls : list R) :
  forall prev : R,
  exists rs,
    map2 fsub (map Fin ls)
         (firstn (length (map Fin ls)) (Fin prev :: map Fin ls))
    = map Fin rs /\
    length rs = length ls.
Proof.
  induction ls as [ | l ls IH]; intros prev; simpl.
  - exists []. auto.
  - destruct (IH l) as [rs [Hrs Hlen]].
    exists ((l - prev) :: rs). simpl. rewrite Hrs, Hlen. auto.
Qed.

Lemma log_of_positive_closes (df : list bar) :
  (forall b, In b df -> exists c, Close b = Fin c /\ 0 < c) ->
  exists ls, map np_log (map Close df) = map Fin ls /\
             length ls = length df.
Proof.
  induction df as [ | b df IH]; intros Hpos; simpl.
  - exists []. auto.
  - destruct (Hpos b (or_introl eq_refl)) as [c [Hc Hc0]].
    destruct IH as [ls [Hls Hlen]].
    { intros b' Hin. apply Hpos. right. exact Hin. }
    exists (ln c :: ls). simpl. rewrite Hc, Hls, Hlen. simpl.
    rewrite Rsign_pos by exact Hc0. auto.
Qed.

(** With positive closes every log return after the first row is a real. *)
Lemma LogRet_of_positive_closes (b : bar) (df : list bar) :
  (forall b', In b' (b :: df) -> exists c, Close b' = Fin c /\ 0 < c) ->
  exists rs, LogRet_col (b :: df) = NaN :: map Fin rs /\
             length rs = length df.
Proof.
  intros Hpos.
  destruct (log_of_positive_closes (b :: df) Hpos) as [ls [Hls Hlen]].
  unfold LogRet_col. rewrite Hls.
  destruct ls as [ | l ls]; [discriminate Hlen | ].
  destruct (finite_differences ls l) as [rs [Hrs Hrlen]].
  exists rs. unfold diff, shift. simpl. rewrite Hrs.
  simpl in Hlen. split; [reflexivity | lia].
Qed.

(** The volatility column has no value in its first two rows. *)
Lemma Vol_EWMA_first_two (alpha : R) (df : list bar) (t : nat) :
  (t < 2)%nat -> cell (Vol_EWMA_col alpha df) t = NaN.
Proof.
  intros Ht. unfold Vol_EWMA_col, ewm_std. rewrite cell_map_zsqrt.
  destruct df as [ | b df].
  - unfold cell. destruct t; reflexivity.
  - destruct (LogRet_first b df) as [rest ->]. simpl map.
    rewrite ewmcov_first_two by exact Ht. reflexivity.
Qed.

(** With positive closes and a weight strictly between zero and one it has
    a value in every later row. *)
Lemma Vol_EWMA_from_third (alpha : R) (df : list bar) (t : nat) :
  0 < alpha < 1 ->
  (forall b, In b df -> exists c, Close b = Fin c /\ 0 < c) ->
  (2 <= t < length df)%nat ->
  is_finite (cell (Vol_EWMA_col alpha df) t) = true.
Proof.
  intros Ha Hpos Ht. unfold Vol_EWMA_col, ewm_std. rewrite cell_map_zsqrt.
  destruct df as [ | b df]; [simpl in Ht; lia | ].
  destruct (LogRet_of_positive_closes b df Hpos) as [rs [-> Hlen]].
  simpl in Ht.
  destruct rs as [ | x rs]; [simpl in Hlen; lia | ].
  destruct t as [ | [ | t]]; try lia.
  simpl map. rewrite map_map. simpl in Hlen.
  change (map (fun x0 : R => ewm_prep (Fin x0)) rs) with (map Some rs).
  pose proof (ewmcov_from_third alpha x rs t Ha) as Hfin.
  destruct (cell (ewmcov alpha 1 (None :: Some x :: map Some rs))
              (S (S t))) as [ | | | v];
    try (discriminate Hfin; lia).
  simpl. destruct (Rlt_dec v 0); reflexivity.
Qed.

(** C6, as the code has it.  For a series of positive closes and an
    accepted configuration, [Vol_EWMA] is missing in the first two rows and
    defined in every row from index two on: the unbiased exponentially
    weighted deviation needs two returns. *)
Theorem vol_ewma_defined_from_second_return (df : list bar)
  (hl atr_win vol_win vov_win : Z) (out : list indicator_row)
  (t : nat) (r : indicator_row) :
  compute_indicators df hl atr_win vol_win vov_win = Ok out ->
  (forall b, In b df -> exists c, Close b = Fin c /\ 0 < c) ->
  nth_error out t = Some r ->
  ((t < 2)%nat -> Vol_EWMA r = NaN) /\
  ((2 <= t)%nat -> is_finite (Vol_EWMA r) = true).
Proof.
  intros Hrun Hpos Hrow.
  apply compute_indicators_Ok_inv in Hrun.
  destruct Hrun as [(Hhl & _) ->].
  apply indicator_frame_nth_error in Hrow.
  destruct Hrow as (Hbar & -> & _).
  split; intros Ht.
  - apply Vol_EWMA_first_two. exact Ht.
  - apply Vol_EWMA_from_third.
    + apply ewm_alpha_range. exact Hhl.
    + exact Hpos.
    + split; [exact Ht | ].
      apply nth_error_Some. rewrite Hbar. discriminate.
Qed.

Lemma three_bars_positive :
  forall b, In b three_bars -> exists c, Close b = Fin c /\ 0 < c.
Proof.
  intros b [<- | [<- | [<- | []]]]; simpl; eexists; split;
    try reflexivity; lra.
Defined.

Lemma vol_ewma_defined_from_second_return_witness :
  exists r,
    nth_error (indicator_frame (ewm_alpha 10) (window 14) (window 20)
                 (window 20) three_bars) 2 = Some r /\
    is_finite (Vol_EWMA r) = true.
Proof.
  eexists. split; [reflexivity | ].
  apply (vol_ewma_defined_from_second_return three_bars 10 14 20 20
           (indicator_frame (ewm_alpha 10) (window 14) (window 20)
              (window 20) three_bars) 2).
  - apply compute_indicators_accepted; [unfold accepted; lia | discriminate].
  - exact three_bars_positive.
  - reflexivity.
  - lia.
Defined.

(** C6 as stated fails at the index of the first return: on three days of
    positive closes, with the default windows, [Vol_EWMA] is missing in
    row one. *)
Lemma vol_ewma_defined_from_second_return_counterexample :
  exists out r,
    compute_indicators three_bars 10 14 20 20 = Ok out /\
    (2 <= length three_bars)%nat /\
    nth_error out 1 = Some r /\
    (exists x, LogRet r = Fin x) /\
    Vol_EWMA r = NaN.
Proof.
  eexists. eexists.
  split; [apply compute_indicators_accepted;
            [unfold accepted; lia | discriminate] | ].
  split; [simpl; lia | ].
  split; [reflexivity | ].
  split.
  - cbn [LogRet]. unfold LogRet_col, diff, shift, cell. simpl.
    rewrite !Rsign_pos by lra. simpl. eexists. reflexivity.
  - cbn [Vol_EWMA]. apply Vol_EWMA_first_two. lia.
Qed.

(** * Further properties of the code *)

(** ** [build_risk_range]: rows, weights, tilt and confidence *)

Lemma build_risk_range_nth_error (out : list indicator_row)
  (z w_ewm w_gk w_atr vol_adj vov_adj tilt_gamma : R) (t : nat) :
  nth_error (build_risk_range out z w_ewm w_gk w_atr vol_adj vov_adj
               tilt_gamma) t
  = option_map
      (risk_range_row z
         (fst (fst (normalize_weights w_ewm w_gk w_atr)))
         (snd (fst (normalize_weights w_ewm w_gk w_atr)))
         (snd (normalize_weights w_ewm w_gk w_atr))
         vol_adj vov_adj tilt_gamma)
      (nth_error out t).
Proof.
  unfold build_risk_range.
  destruct (normalize_weights w_ewm w_gk w_atr) as [[a b] c]. simpl.
  apply nth_error_map.
Qed.

(** Only the proportions of the blend weights matter: multiplying all three
    by the same non-zero factor does not change the result. *)
Theorem weights_scale_invariant (out : list indicator_row)
  (k z w_ewm w_gk w_atr vol_adj vov_adj tilt_gamma : R) :
  k <> 0 -> w_ewm + w_gk + w_atr <> 0 ->
  build_risk_range out z (k * w_ewm) (k * w_gk) (k * w_atr)
    vol_adj vov_adj tilt_gamma
  = build_risk_range out z w_ewm w_gk w_atr vol_adj vov_adj tilt_gamma.
Proof.
  intros Hk Hs.
  assert (Hnw : normalize_weights (k * w_ewm) (k * w_gk) (k * w_atr)
                = normalize_weights w_ewm w_gk w_atr).
  { unfold normalize_weights.
    destruct (Req_dec_T (w_ewm + w_gk + w_atr) 0) as [H0 | _];
      [contradiction | ].
    destruct (Req_dec_T (k * w_ewm + k * w_gk + k * w_atr) 0) as [H0 | _].
    - exfalso.
      replace (k * w_ewm + k * w_gk + k * w_atr)
        with (k * (w_ewm + w_gk + w_atr)) in H0 by ring.
      apply Rmult_integral in H0. tauto.
    - f_equal; [f_equal | ]; field; split; auto;
        replace (k * w_ewm + k * w_gk + k * w_atr)
          with (k * (w_ewm + w_gk + w_atr)) by ring;
        apply Rmult_integral_contrapositive; auto. }
  unfold build_risk_range. rewrite Hnw. reflexivity.
Qed.

Lemma weights_scale_invariant_witness :
  build_risk_range [sample_row] 1.65 (10 * 0.5) (10 * 0.3) (10 * 0.2)
    0.15 0.10 0.10
  = build_risk_range [sample_row] 1.65 0.5 0.3 0.2 0.15 0.10 0.10.
Proof.
  apply (weights_scale_invariant [sample_row] 10 1.65 0.5 0.3 0.2); lra.
Defined.

(** Without a trend the band is centred on the close: where [ROC_20d] is
    missing or zero, or the tilt is switched off, and the close and the
    width are real, [Center] is the close and the band is the close plus
    and minus the width. *)
Theorem no_trend_centres_on_close (out : list indicator_row)
  (z w_ewm w_gk w_atr vol_adj vov_adj tilt_gamma : R) (r : risk_row) :
  In r (build_risk_range out z w_ewm w_gk w_atr vol_adj vov_adj tilt_gamma) ->
  ROC_20d (ind r) = NaN \/ ROC_20d (ind r) = Fin 0 \/
  (tilt_gamma = 0 /\ is_finite (ROC_20d (ind r)) = true) ->
  is_finite (Close (price (ind r))) = true ->
  is_finite (Width r) = true ->
  Center r = Close (price (ind r)) /\
  Upper r = fadd (Close (price (ind r))) (Width r) /\
  Lower r = fsub (Close (price (ind r))) (Width r).
Proof.
  intros Hin Hroc Hclose Hwidth. apply build_risk_range_In in Hin.
  destruct Hin as [r0 [_ ->]]. row_fields.
  match type of Hwidth with
  | is_finite ?w = true => set (width := w) in *; clearbody width
  end.
  assert (Hc : fadd (Close (price r0))
                 (fmul (fmul (Fin tilt_gamma) (fillna0 (ROC_20d r0))) width)
               = Close (price r0)).
  { destruct (Close (price r0)) as [ | | | c]; try discriminate.
    destruct width as [ | | | w]; try discriminate.
    destruct Hroc as [-> | [-> | [-> Hfin]]].
    - simpl. f_equal. ring.
    - simpl. f_equal. ring.
    - destruct (ROC_20d r0) as [ | | | x]; try discriminate.
      simpl. f_equal. ring. }
  rewrite Hc. auto.
Qed.

Lemma no_trend_centres_on_close_witness :
  let r := risk_range_row 1.65 (0.5 / 1) (0.3 / 1) (0.2 / 1) 0.15 0.10 0.10
             {| price := sample_bar 30 100 1000;
                Ret := Fin 0; LogRet := Fin 0;
                Vol_EWMA := Fin 0.01; ATR := Fin 2; Vol_ATR := Fin 0.02;
                Vol_GK := Fin 0.01; VolZ := Fin 0; VoV_Z := Fin 0;
                ROC_1d := Fin 0; ROC_20d := NaN |} in
  Center r = Close (price (ind r)) /\
  Upper r = fadd (Close (price (ind r))) (Width r) /\
  Lower r = fsub (Close (price (ind r))) (Width r).
Proof.
  intros r.
  apply (no_trend_centres_on_close
           [ind r] 1.65 0.5 0.3 0.2 0.15 0.10 0.10 r).
  - apply sample_row_built.
  - left. reflexivity.
  - reflexivity.
  - unfold r. simpl. unfold vol_factor, vov_factor. simpl.
    match goal with |- context [Rlt_dec ?a 0] => destruct (Rlt_dec a 0) end;
      reflexivity.
Defined.

(** A higher confidence never narrows the band: for confidences
    [0 <= z <= z'] and otherwise equal arguments, [WidthPct] under [z] is
    at most [WidthPct] under [z'] in every row with defined inputs. *)
Theorem width_pct_monotone_in_z (out : list indicator_row)
  (z z' w_ewm w_gk w_atr vol_adj vov_adj tilt_gamma : R)
  (t : nat) (r r' : risk_row) :
  nth_error (build_risk_range out z w_ewm w_gk w_atr vol_adj vov_adj
               tilt_gamma) t = Some r ->
  nth_error (build_risk_range out z' w_ewm w_gk w_atr vol_adj vov_adj
               tilt_gamma) t = Some r' ->
  inputs_defined (ind r) ->
  0 <= z <= z' ->
  fle (WidthPct r) (WidthPct r').
Proof.
  rewrite !build_risk_range_nth_error.
  destruct (nth_error out t) as [r0 | ]; [ | discriminate].
  simpl. intros Hr Hr' Hdef Hz.
  injection Hr as <-. injection Hr' as <-.
  set (nw := normalize_weights w_ewm w_gk w_atr) in *.
  destruct Hdef as (Hc & He & Hg & Ha & Hv & Hvv & Hroc). simpl in *.
  unfold vol_factor, vov_factor.
  destruct (Vol_EWMA r0) as [ | | | e]; try discriminate.
  destruct (Vol_GK r0) as [ | | | g]; try discriminate.
  destruct (Vol_ATR r0) as [ | | | a]; try discriminate.
  destruct (VolZ r0) as [ | | | v]; try discriminate.
  destruct (VoV_Z r0) as [ | | | vv]; try discriminate.
  simpl.
  set (vc := fst (fst nw) * e + snd (fst nw) * g + snd nw * a).
  set (f := 1 + vol_adj * v). set (f' := 1 + vov_adj * vv).
  assert (Hz1 : z * vc * f * f' = z * (vc * f * f')) by ring.
  assert (Hz2 : z' * vc * f * f' = z' * (vc * f * f')) by ring.
  rewrite Hz1, Hz2. set (p := vc * f * f'). clearbody p.
  destruct (Rlt_dec (z * p) 0) as [Hn | Hn],
           (Rlt_dec (z' * p) 0) as [Hn' | Hn']; simpl;
    destruct (Rle_lt_dec 0 p); nra.
Qed.

Lemma width_pct_monotone_in_z_witness :
  fle (WidthPct (risk_range_row 1.0 (0.5 / 1) (0.3 / 1) (0.2 / 1)
                   0.15 0.10 0.10 sample_row))
      (WidthPct (risk_range_row 1.65 (0.5 / 1) (0.3 / 1) (0.2 / 1)
                   0.15 0.10 0.10 sample_row)).
Proof.
  apply (width_pct_monotone_in_z [sample_row] 1.0 1.65 0.5 0.3 0.2
           0.15 0.10 0.10 0).
  - rewrite build_risk_range_nth_error, normalize_weights_default.
    reflexivity.
  - rewrite build_risk_range_nth_error, normalize_weights_default.
    reflexivity.
  - unfold inputs_defined. simpl. repeat split; reflexivity.
  - lra.
Defined.

(** ** [make_table] *)

Lemma percent_not_nan (a : fnum) : a <> NaN -> percent a <> NaN.
Proof.
  destruct a as [ | | | x]; unfold percent; simpl; intros Ha;
    try congruence.
  - rewrite Rsign_pos by lra. discriminate.
  - rewrite Rsign_pos by lra. discriminate.
Qed.

Lemma make_table_In (df : list risk_row) (r : table_row) :
  In r (make_table df) <->
  exists r0, In r0 df /\ complete r0 = true /\ r = table_of r0.
Proof.
  unfold make_table. rewrite in_map_iff. split.
  - intros [r0 [Hr Hin]]. apply filter_In in Hin.
    destruct Hin as [Hin Hc]. exists r0. auto.
  - intros [r0 [Hin [Hc Hr]]]. exists r0. split; [auto | ].
    apply filter_In. auto.
Qed.

Lemma complete_cells (r0 : risk_row) :
  complete r0 = true -> forall a, In a (selected_cells r0) -> a <> NaN.
Proof.
  unfold complete. rewrite forallb_forall. intros Hall a Hin Ha.
  apply Hall in Hin. rewrite Ha in Hin. discriminate.
Qed.

(** No cell of the projected table is missing. *)
Theorem make_table_has_no_missing_cell (df : list risk_row)
  (r : table_row) (a : fnum) :
  In r (make_table df) -> In a (table_cells r) -> a <> NaN.
Proof.
  intros Hr Ha. apply make_table_In in Hr.
  destruct Hr as [r0 [_ [Hc ->]]].
  pose proof (complete_cells r0 Hc) as Hsel.
  unfold table_cells, table_of in Ha. cbn in Ha.
  repeat (destruct Ha as [<- | Ha];
          [ try apply percent_not_nan; apply Hsel; simpl;
            repeat (first [left; reflexivity | right]) | ]).
  contradiction.
Qed.

Lemma make_table_has_no_missing_cell_witness :
  let r0 := risk_range_row 1.65 (0.5 / 1) (0.3 / 1) (0.2 / 1) 0.15 0.10 0.10
              sample_row in
  fmul (Fin 100) (ROC_20d (ind r0)) <> NaN.
Proof.
  intros r0.
  apply (make_table_has_no_missing_cell [r0] (table_of r0)).
  - apply make_table_In. exists r0.
    split; [left; reflexivity | ]. split; [ | reflexivity].
    unfold complete, r0. simpl. unfold vol_factor, vov_factor. simpl.
    match goal with |- context [Rlt_dec ?a 0] => destruct (Rlt_dec a 0) end;
      reflexivity.
  - unfold table_cells, table_of, percent. simpl.
    repeat (first [left; reflexivity | right]).
Defined.

(** ** The ticker field *)

Lemma split_on_nonempty (sep : ascii) (s : string) : split_on sep s <> [].
Proof.
  destruct s as [ | c s]; simpl; [discriminate | ].
  destruct (Ascii.eqb c sep); [discriminate | ].
  destruct (split_on sep s); discriminate.
Qed.

Lemma split_on_length (sep : ascii) (s : string) :
  length (split_on sep s) = S (count_char sep s).
Proof.
  induction s as [ | c s IH]; simpl; [reflexivity | ].
  destruct (Ascii.eqb c sep); simpl; [rewrite IH; reflexivity | ].
  destruct (split_on sep s) as [ | piece pieces]; simpl in *;
    [discriminate IH | exact IH].
Qed.

Lemma join_split_on (sep : ascii) (s : string) :
  join sep (split_on sep s) = s.
Proof.
  induction s as [ | c s IH]; simpl; [reflexivity | ].
  destruct (Ascii.eqb_spec c sep) as [-> | Hne].
  - pose proof (split_on_nonempty sep s) as Hne.
    destruct (split_on sep s) as [ | piece pieces]; [contradiction | ].
    simpl in *. rewrite IH. reflexivity.
  - pose proof (split_on_nonempty sep s) as Hnil.
    destruct (split_on sep s) as [ | piece pieces]; [contradiction | ].
    destruct pieces as [ | piece' pieces]; simpl in *.
    + rewrite IH. reflexivity.
    + rewrite IH. reflexivity.
Qed.

(** A piece holds no separator, and no more of any other character than
    the text it was cut from. *)
Lemma split_on_pieces (sep d : ascii) (s : string) :
  Forall (fun piece =>
            count_char sep piece = 0%nat /\
            (count_char d piece <= count_char d s)%nat)
         (split_on sep s).
Proof.
  induction s as [ | c s IH]; simpl.
  - constructor; [simpl; auto | constructor].
  - destruct (Ascii.eqb_spec c sep) as [-> | Hne].
    + constructor; [simpl; split; [reflexivity | lia] | ].
      eapply Forall_impl; [ | exact IH].
      simpl. intros piece [H0 Hd]. split; [exact H0 | lia].
    + destruct (split_on sep s) as [ | piece pieces]; simpl.
      * constructor; [ | constructor]. simpl.
        destruct (Ascii.eqb_spec c sep); [contradiction | ].
        split; [reflexivity | lia].
      * inversion IH as [ | ? ? [H0 Hd] Hrest]; subst.
        constructor.
        -- simpl. destruct (Ascii.eqb_spec c sep); [contradiction | ].
           split; [exact H0 | ]. destruct (Ascii.eqb c d); lia.
        -- eapply Forall_impl; [ | exact Hrest].
           simpl. intros p [Hp0 Hpd]. split; [exact Hp0 | lia].
Qed.

Lemma remove_spaces_no_space (s : string) :
  count_char " " (remove_spaces s) = 0%nat.
Proof.
  induction s as [ | c s IH]; simpl; [reflexivity | ].
  destruct (Ascii.eqb c " ") eqn:Hc; simpl; [exact IH | ].
  rewrite Hc. exact IH.
Qed.

Lemma remove_spaces_keeps (d : ascii) (s : string) :
  d <> " "%char ->
  count_char d (remove_spaces s) = count_char d s.
Proof.
  intros Hd. induction s as [ | c s IH]; [reflexivity | ].
  cbn [remove_spaces count_char].
  destruct (Ascii.eqb_spec c " ") as [-> | Hc].
  - destruct (Ascii.eqb_spec " "%char d) as [He | _];
      [symmetry in He; contradiction | ].
    rewrite IH. reflexivity.
  - cbn [count_char]. rewrite IH. reflexivity.
Qed.

Lemma upper_char_comma (c : ascii) :
  Ascii.eqb (upper_char c) "," = Ascii.eqb c ",".
Proof.
  destruct c as [[] [] [] [] [] [] [] []]; reflexivity.
Qed.

Lemma str_upper_commas (s : string) :
  count_char "," (str_upper s) = count_char "," s.
Proof.
  induction s as [ | c s IH]; simpl; [reflexivity | ].
  rewrite upper_char_comma, IH. reflexivity.
Qed.

(** The page always takes the per-ticker branch: the ticker list is never
    empty, it has one entry more than the text has commas, so the
    "enter at least one ticker" branch cannot be reached. *)
Theorem ticker_list_never_empty (text : string) :
  page_of text = PerTicker (parse_tickers text) /\
  length (parse_tickers text) = S (count_char "," text).
Proof.
  split.
  - unfold page_of.
    pose proof (split_on_nonempty "," (remove_spaces (str_upper text)))
      as Hne.
    unfold parse_tickers in *.
    destruct (split_on "," (remove_spaces (str_upper text)));
      [contradiction | reflexivity].
  - unfold parse_tickers.
    rewrite split_on_length, remove_spaces_keeps, str_upper_commas;
      [reflexivity | discriminate].
Qed.

(** No ticker holds a comma or a space, and the tickers joined by commas
    are the text in upper case with its spaces removed. *)
Theorem tickers_round_trip (text : string) :
  Forall (fun ticker =>
            count_char "," ticker = 0%nat /\ count_char " " ticker = 0%nat)
         (parse_tickers text) /\
  join "," (parse_tickers text) = remove_spaces (str_upper text).
Proof.
  unfold parse_tickers. split; [ | apply join_split_on].
  eapply Forall_impl;
    [ | apply (split_on_pieces "," " " (remove_spaces (str_upper text)))].
  simpl. intros ticker [Hc Hs]. split; [exact Hc | ].
  rewrite remove_spaces_no_space in Hs. lia.
Qed.

(** ** [fetch_prices] *)

Lemma dropna_all_missing (raw_row : Type) (isna : raw_row -> bool)
  (df : list raw_row) :
  (forall r, In r df -> isna r = true) -> dropna raw_row isna df = [].
Proof.
  unfold dropna. induction df as [ | r df IH]; intros Hall; simpl;
    [reflexivity | ].
  rewrite (Hall r) by (left; reflexivity). simpl.
  apply IH. intros r' Hin. apply Hall. right. exact Hin.
Qed.

(** [fetch_prices] raises exactly when nothing was downloaded; the frame
    it returns has no missing cell, and it is the empty frame, not an
    error, when every downloaded row has one. *)
Theorem fetch_prices_outcomes (raw_row : Type) (isna : raw_row -> bool)
  (downloaded : option (list raw_row)) :
  (is_error (fetch_prices raw_row isna downloaded) = true <->
   downloaded = None \/ downloaded = Some []) /\
  (forall out,
      fetch_prices raw_row isna downloaded = Ok out ->
      forall r, In r out -> isna r = false) /\
  (forall df,
      downloaded = Some df -> df <> [] ->
      (forall r, In r df -> isna r = true) ->
      fetch_prices raw_row isna downloaded = Ok []).
Proof.
  split; [ | split].
  - destruct downloaded as [[ | r df] | ]; simpl; split; intros H; auto;
      try discriminate.
    destruct H as [H | H]; discriminate H.
  - intros out Hout r Hin.
    destruct downloaded as [[ | r0 df] | ]; try discriminate Hout.
    assert (Hd : dropna raw_row isna (r0 :: df) = out)
      by (unfold fetch_prices in Hout; congruence).
    rewrite <- Hd in Hin. unfold dropna in Hin.
    apply filter_In in Hin. destruct Hin as [_ Hna].
    destruct (isna r); [discriminate Hna | reflexivity].
  - intros df -> Hne Hall.
    destruct df as [ | r0 df]; [contradiction | ].
    unfold fetch_prices. f_equal. apply dropna_all_missing. exact Hall.
Qed.

Lemma fetch_prices_outcomes_witness :
  fetch_prices fnum is_nan (Some [Fin 1; Fin 2]) = Ok [Fin 1; Fin 2] /\
  fetch_prices fnum is_nan (Some [NaN; NaN]) = Ok [].
Proof.
  split; [reflexivity | ].
  apply (proj2 (proj2 (fetch_prices_outcomes fnum is_nan
                         (Some [NaN; NaN]))) [NaN; NaN]).
  - reflexivity.
  - discriminate.
  - intros r [<- | [<- | []]]; reflexivity.
Defined.

(** ** The sidebar *)

(** Every setting of the sidebar is accepted by the core on a series
    with at least one row: it returns a frame with one row per input row,
    the confidence is positive, and the effective blend weights are
    non-negative and sum to one, so that [Vol_Combined] is a weighted
    average of the three estimators.  On the series without rows the core
    raises whatever the sidebar says. *)
Theorem sidebar_settings_are_accepted (df : list bar) (c : config) :
  sidebar_config c ->
  (df <> [] ->
   exists rows, run_core df c = Ok rows /\ length rows = length df) /\
  is_error (run_core [] c) = true /\
  0 < cfg_z c /\
  (let '(a, b, g) :=
     normalize_weights (cfg_w_ewm c) (cfg_w_gk c) (cfg_w_atr c) in
   0 <= a /\ 0 <= b /\ 0 <= g /\ a + b + g = 1).
Proof.
  intros (Hhl & Ha & Hv & Hvv & Hz & Hwe & Hwg & Hwa & _).
  split; [ | split; [ | split]].
  - intros Hdf. unfold run_core.
    rewrite compute_indicators_accepted;
      [ | unfold accepted; lia | exact Hdf].
    eexists. split; [reflexivity | ].
    rewrite build_risk_range_length. apply indicator_frame_length.
  - unfold run_core.
    pose proof (compute_indicators_empty (cfg_hl c) (cfg_atr_win c)
                  (cfg_vol_win c) (cfg_vov_win c)) as He.
    destruct (compute_indicators [] (cfg_hl c) (cfg_atr_win c)
                (cfg_vol_win c) (cfg_vov_win c));
      [discriminate He | reflexivity].
  - simpl in Hz.
    destruct Hz as [<- | [<- | [<- | [<- | [<- | [<- | []]]]]]]; lra.
  - unfold normalize_weights.
    destruct (Req_dec_T (cfg_w_ewm c + cfg_w_gk c + cfg_w_atr c) 0)
      as [H0 | Hne].
    + repeat split; lra.
    + assert (Hs : 0 < cfg_w_ewm c + cfg_w_gk c + cfg_w_atr c) by lra.
      assert (Hi : 0 < / (cfg_w_ewm c + cfg_w_gk c + cfg_w_atr c))
        by (apply Rinv_0_lt_compat; exact Hs).
      unfold Rdiv.
      repeat split; try (apply Rmult_le_pos; lra).
      field. exact Hne.
Qed.

Lemma sidebar_settings_are_accepted_witness :
  (exists rows,
     run_core three_bars (default_config 1.65) = Ok rows /\
     length rows = length three_bars) /\
  is_error (run_core [] (default_config 1.65)) = true.
Proof.
  assert (Hc : sidebar_config (default_config 1.65)).
  { unfold sidebar_config, default_config. simpl.
    repeat split; try lia; lra. }
  pose proof (sidebar_settings_are_accepted three_bars
                (default_config 1.65) Hc) as [Hrows [Hempty _]].
  split; [apply Hrows; discriminate | exact Hempty].
Defined.

(** ** [_true_range] *)

(** Against a missing previous close the true range is [High - Low]: the
    comparisons of Python's [max] with NaN are false, so its first argument
    stays.  On real values it is the greatest of the three distances, and
    it is never negative. *)
Theorem true_range_values (row : bar) :
  _true_range row NaN = fsub (High row) (Low row) /\
  (forall h l p,
      High row = Fin h -> Low row = Fin l ->
      _true_range row (Fin p)
      = Fin (Rmax (Rmax (h - l) (Rabs (h - p))) (Rabs (l - p))) /\
      0 <= Rmax (Rmax (h - l) (Rabs (h - p))) (Rabs (l - p))).
Proof.
  split.
  - unfold _true_range. rewrite !fsub_nan_r. simpl.
    unfold py_max3. destruct (fsub (High row) (Low row)); reflexivity.
  - intros h l p Hh Hl. unfold _true_range. rewrite Hh, Hl. simpl.
    split.
    + unfold py_max3, fgt.
      destruct (Rlt_dec (h - l) (Rabs (h - p))) as [H1 | H1].
      * rewrite (Rmax_right (h - l)) by lra.
        destruct (Rlt_dec (Rabs (h - p)) (Rabs (l - p))) as [H2 | H2].
        -- rewrite Rmax_right by lra. reflexivity.
        -- rewrite Rmax_left by lra. reflexivity.
      * rewrite (Rmax_left (h - l)) by lra.
        destruct (Rlt_dec (h - l) (Rabs (l - p))) as [H2 | H2].
        -- rewrite Rmax_right by lra. reflexivity.
        -- rewrite Rmax_left by lra. reflexivity.
    + pose proof (Rabs_pos (l - p)) as Hpos.
      pose proof (Rmax_r (Rmax (h - l) (Rabs (h - p))) (Rabs (l - p))).
      lra.
Qed.

Lemma true_range_values_witness :
  _true_range (sample_bar 2 102 1000) (Fin 100)
  = Fin (Rmax (Rmax (103 - 101) (Rabs (103 - 100))) (Rabs (101 - 100))).
Proof.
  apply (proj2 (true_range_values (sample_bar 2 102 1000)) 103 101 100).
  - simpl. f_equal. lra.
  - simpl. f_equal. lra.
Defined.

(** ** Returns and rates of change *)

Lemma cell_shift (n : nat) (xs : column) (t : nat) :
  (t < length xs)%nat ->
  cell (shift n xs) t = if (t <? n)%nat then NaN else cell xs (t - n).
Proof.
  intros Ht. unfold shift, cell. rewrite nth_firstn.
  destruct (Nat.ltb_spec t (length xs)); [ | lia].
  destruct (Nat.ltb_spec t n) as [Hlt | Hge].
  - rewrite app_nth1 by (rewrite repeat_length; exact Hlt).
    apply nth_repeat.
  - rewrite app_nth2 by (rewrite repeat_length; lia).
    rewrite repeat_length. reflexivity.
Qed.

Lemma cell_pct_change (n : nat) (xs : column) (t : nat) :
  (t < length xs)%nat ->
  cell (pct_change n xs) t
  = if (t <? n)%nat then NaN
    else fsub (fdiv (cell xs t) (cell xs (t - n))) (Fin 1).
Proof.
  intros Ht. unfold pct_change.
  rewrite cell_map2 by (rewrite ?shift_length; exact Ht).
  rewrite cell_shift by exact Ht.
  destruct (t <? n)%nat; [ | reflexivity].
  rewrite fdiv_nan_r. reflexivity.
Qed.

Lemma cell_diff (xs : column) (t : nat) :
  (t < length xs)%nat ->
  cell (diff xs) t
  = if (t <? 1)%nat then NaN else fsub (cell xs t) (cell xs (t - 1)).
Proof.
  intros Ht. unfold diff.
  rewrite cell_map2 by (rewrite ?shift_length; exact Ht).
  rewrite cell_shift by exact Ht.
  destruct (t <? 1)%nat; [ | reflexivity].
  apply fsub_nan_r.
Qed.

Lemma cell_map_col (f : bar -> fnum) (df : list bar) (t : nat) (b : bar) :
  nth_error df t = Some b -> cell (map f df) t = f b.
Proof.
  intros Hb. unfold cell.
  apply nth_error_nth. rewrite nth_error_map, Hb. reflexivity.
Qed.

(** Row [t] of the frame, field by field. *)
Lemma indicator_frame_row (alpha : R) (atr vol vov : nat * nat)
  (df : list bar) (t : nat) (r : indicator_row) :
  nth_error (indicator_frame alpha atr vol vov df) t = Some r ->
  nth_error df t = Some (price r) /\
  r = {| price := price r;
         Ret := cell (Ret_col df) t;
         LogRet := cell (LogRet_col df) t;
         Vol_EWMA := cell (Vol_EWMA_col alpha df) t;
         ATR := cell (ATR_col atr df) t;
         Vol_ATR := cell (Vol_ATR_col atr df) t;
         Vol_GK := cell (Vol_GK_col df) t;
         VolZ := cell (VolZ_col vol df) t;
         VoV_Z := cell (VoV_Z_col alpha vov df) t;
         ROC_1d := cell (Ret_col df) t;
         ROC_20d := cell (ROC_20d_col df) t |}.
Proof.
  unfold indicator_frame. rewrite nth_error_map.
  destruct (nth_error (combine (seq 0 (length df)) df) t) as [[k b] | ]
    eqn:Hnth; [ | discriminate].
  apply nth_error_combine_seq in Hnth. destruct Hnth as [-> Hb].
  simpl. intros Hr. injection Hr as <-. simpl. auto.
Qed.

(** The rates of change have no value before their lookback is covered:
    [ROC_20d] is missing in the first twenty rows and [Ret], [ROC_1d] and
    [LogRet] in the first, whatever the prices. *)
Theorem rates_of_change_warm_up (df : list bar)
  (hl atr_win vol_win vov_win : Z) (out : list indicator_row)
  (t : nat) (r : indicator_row) :
  compute_indicators df hl atr_win vol_win vov_win = Ok out ->
  nth_error out t = Some r ->
  ((t < 20)%nat -> ROC_20d r = NaN) /\
  (t = 0%nat -> Ret r = NaN /\ ROC_1d r = NaN /\ LogRet r = NaN).
Proof.
  intros Hrun Hrow.
  apply compute_indicators_Ok_inv in Hrun. destruct Hrun as [_ ->].
  apply indicator_frame_row in Hrow. destruct Hrow as [Hb ->].
  assert (Ht : (t < length df)%nat).
  { apply nth_error_Some. rewrite Hb. discriminate. }
  cbn [ROC_20d Ret ROC_1d LogRet].
  unfold ROC_20d_col, Ret_col, LogRet_col. split.
  - intros Hlt. rewrite cell_pct_change by (rewrite length_map; exact Ht).
    destruct (Nat.ltb_spec t 20); [reflexivity | lia].
  - intros ->.
    rewrite cell_pct_change by (rewrite length_map; exact Ht).
    rewrite cell_diff by (rewrite !length_map; exact Ht).
    auto.
Qed.

Lemma rates_of_change_warm_up_witness :
  exists r,
    nth_error (indicator_frame (ewm_alpha 10) (window 14) (window 20)
                 (window 20) three_bars) 2 = Some r /\
    ROC_20d r = NaN.
Proof.
  eexists. split; [reflexivity | ].
  apply (rates_of_change_warm_up three_bars 10 14 20 20
           (indicator_frame (ewm_alpha 10) (window 14) (window 20)
              (window 20) three_bars) 2).
  - apply compute_indicators_accepted; [unfold accepted; lia | discriminate].
  - reflexivity.
  - lia.
Defined.

(** Between two rows of positive closes the simple return is
    [close / previous close - 1], [ROC_1d] is the same cell, and the log
    return is the logarithm of one plus the simple return. *)
Theorem log_return_of_simple_return (df : list bar)
  (hl atr_win vol_win vov_win : Z) (out : list indicator_row)
  (t : nat) (r : indicator_row) (prev : bar) (c p : R) :
  compute_indicators df hl atr_win vol_win vov_win = Ok out ->
  nth_error out (S t) = Some r ->
  nth_error df t = Some prev ->
  Close (price r) = Fin c -> Close prev = Fin p ->
  0 < c -> 0 < p ->
  Ret r = Fin (c / p - 1) /\
  ROC_1d r = Ret r /\
  LogRet r = Fin (ln (1 + (c / p - 1))).
Proof.
  intros Hrun Hrow Hprev Hc Hp Hc0 Hp0.
  apply compute_indicators_Ok_inv in Hrun. destruct Hrun as [_ ->].
  apply indicator_frame_row in Hrow. destruct Hrow as [Hb Hr].
  assert (Ht : (S t < length df)%nat).
  { apply nth_error_Some. rewrite Hb. discriminate. }
  rewrite Hr. cbn [Ret ROC_1d LogRet].
  unfold Ret_col, LogRet_col.
  rewrite cell_pct_change by (rewrite length_map; exact Ht).
  rewrite cell_diff by (rewrite !length_map; exact Ht).
  rewrite map_map.
  replace (S t - 1)%nat with t by lia.
  rewrite (cell_map_col Close df (S t) (price r) Hb).
  rewrite (cell_map_col Close df t prev Hprev).
  rewrite (cell_map_col (fun x => np_log (Close x)) df (S t) (price r) Hb).
  rewrite (cell_map_col (fun x => np_log (Close x)) df t prev Hprev).
  rewrite Hc, Hp. simpl.
  destruct (Req_dec_T p 0) as [H0 | _]; [lra | ].
  rewrite !Rsign_pos by assumption. simpl.
  repeat split. f_equal.
  replace (1 + (c / p - 1)) with (c * / p) by (field; lra).
  rewrite ln_mult by (try apply Rinv_0_lt_compat; assumption).
  rewrite ln_Rinv by assumption. ring.
Qed.

Lemma log_return_of_simple_return_witness :
  exists r,
    nth_error (indicator_frame (ewm_alpha 10) (window 14) (window 20)
                 (window 20) three_bars) 1 = Some r /\
    Ret r = Fin (102 / 100 - 1) /\
    ROC_1d r = Ret r /\
    LogRet r = Fin (ln (1 + (102 / 100 - 1))).
Proof.
  eexists. split; [reflexivity | ].
  apply (log_return_of_simple_return three_bars 10 14 20 20
           (indicator_frame (ewm_alpha 10) (window 14) (window 20)
              (window 20) three_bars) 0 _ (sample_bar 1 100 1000)).
  - apply compute_indicators_accepted; [unfold accepted; lia | discriminate].
  - reflexivity.
  - reflexivity.
  - reflexivity.
  - reflexivity.
  - lra.
  - lra.
Defined.

(** ** The volatility estimators *)

Lemma cell_Forall (P : fnum -> Prop) (c : column) (t : nat) :
  P NaN -> Forall P c -> P (cell c t).
Proof.
  intros Hnan Hall. unfold cell.
  destruct (Nat.lt_ge_cases t (length c)) as [Ht | Ht].
  - rewrite Forall_forall in Hall. apply Hall. apply nth_In. exact Ht.
  - rewrite nth_overflow by exact Ht. exact Hnan.
Qed.

Lemma zsqrt_of_real_nonneg (a : fnum) :
  a = NaN \/ (exists v, a = Fin v) -> nan_or_nonneg_real (zsqrt a).
Proof.
  intros [-> | [v ->]]; simpl; [left; reflexivity | ].
  right. destruct (Rlt_dec v 0).
  - exists 0. split; [reflexivity | lra].
  - exists (sqrt v). split; [reflexivity | apply sqrt_pos].
Qed.

Lemma ewm_scan_real (alpha : R) (minp : nat) (xs : list (option R)) :
  forall st,
  Forall (fun a => a = NaN \/ exists v, a = Fin v)
         (ewm_scan alpha minp st xs).
Proof.
  induction xs as [ | cur xs IH]; intros st; simpl; constructor.
  - unfold ewm_out.
    destruct (minp <=? nobs (ewm_step alpha st cur))%nat; [ | auto].
    match goal with |- context [Rlt_dec ?a ?b] => destruct (Rlt_dec a b) end;
      [right; eexists; reflexivity | auto].
  - apply IH.
Qed.

(** The exponentially weighted volatility is missing or a non-negative
    real in every row; it is never infinite. *)
Theorem vol_ewma_nonneg (df : list bar)
  (hl atr_win vol_win vov_win : Z) (out : list indicator_row)
  (r : indicator_row) :
  compute_indicators df hl atr_win vol_win vov_win = Ok out ->
  In r out ->
  nan_or_nonneg_real (Vol_EWMA r).
Proof.
  intros Hrun Hin.
  apply compute_indicators_Ok_inv in Hrun. destruct Hrun as [_ ->].
  apply In_nth_error in Hin. destruct Hin as [t Hrow].
  apply indicator_frame_row in Hrow. destruct Hrow as [_ ->].
  cbn [Vol_EWMA]. unfold Vol_EWMA_col, ewm_std.
  rewrite cell_map_zsqrt. apply zsqrt_of_real_nonneg.
  apply (cell_Forall (fun a => a = NaN \/ exists v, a = Fin v));
    [auto | ].
  unfold ewmcov. destruct (map ewm_prep (LogRet_col df)) as [ | x0 rest];
    constructor; [auto | apply ewm_scan_real].
Qed.

Lemma vol_ewma_nonneg_witness :
  exists r,
    nth_error (indicator_frame (ewm_alpha 10) (window 14) (window 20)
                 (window 20) three_bars) 2 = Some r /\
    nan_or_nonneg_real (Vol_EWMA r).
Proof.
  eexists. split; [reflexivity | ].
  apply (vol_ewma_nonneg three_bars 10 14 20 20
           (indicator_frame (ewm_alpha 10) (window 14) (window 20)
              (window 20) three_bars)).
  - apply compute_indicators_accepted; [unfold accepted; lia | discriminate].
  - right; right; left. reflexivity.
Defined.

Lemma gk_sqrt_nonneg (x : fnum) :
  np_sqrt (np_maximum0 x) = NaN \/ fle (Fin 0) (np_sqrt (np_maximum0 x)).
Proof.
  destruct x as [ | | | g]; simpl; auto.
  - right. destruct (Rlt_dec 0 0); [lra | ]. simpl. apply sqrt_pos.
  - right. destruct (Rlt_dec g 0) as [Hg | Hg]; simpl.
    + destruct (Rlt_dec 0 0); [lra | ]. simpl. apply sqrt_pos.
    + destruct (Rlt_dec g 0); [lra | ]. simpl. apply sqrt_pos.
Qed.

Lemma gk_var_real (b : bar) :
  positive_bar b -> exists g, gk_var b = Fin g.
Proof.
  intros (o & h & l & c & Ho & Hh & Hl & Hc & Ho0 & Hh0 & Hl0 & Hc0).
  unfold gk_var. rewrite Ho, Hh, Hl, Hc. simpl.
  destruct (Req_dec_T l 0); [lra | ].
  destruct (Req_dec_T o 0); [lra | ].
  cbn [np_log].
  rewrite (Rsign_pos (h / l)) by (apply Rdiv_lt_0_compat; assumption).
  rewrite (Rsign_pos (c / o)) by (apply Rdiv_lt_0_compat; assumption).
  simpl. eexists. reflexivity.
Qed.

(** The Garman-Klass volatility is never negative: in every row it is
    missing, [+inf] or a non-negative real, and for a bar of positive
    prices it is a non-negative real. *)
Theorem vol_gk_nonneg (df : list bar)
  (hl atr_win vol_win vov_win : Z) (out : list indicator_row)
  (r : indicator_row) :
  compute_indicators df hl atr_win vol_win vov_win = Ok out ->
  In r out ->
  (Vol_GK r = NaN \/ fle (Fin 0) (Vol_GK r)) /\
  (positive_bar (price r) -> exists v, Vol_GK r = Fin v /\ 0 <= v).
Proof.
  intros Hrun Hin.
  apply compute_indicators_Ok_inv in Hrun. destruct Hrun as [_ ->].
  apply In_nth_error in Hin. destruct Hin as [t Hrow].
  apply indicator_frame_row in Hrow. destruct Hrow as [Hb Hr].
  assert (Hgk : Vol_GK r = np_sqrt (np_maximum0 (gk_var (price r)))).
  { rewrite Hr at 1. cbn [Vol_GK]. unfold Vol_GK_col.
    apply (cell_map_col (fun row => np_sqrt (np_maximum0 (gk_var row)))).
    exact Hb. }
  rewrite Hgk. split; [apply gk_sqrt_nonneg | ].
  intros Hpos. destruct (gk_var_real _ Hpos) as [g ->]. simpl.
  destruct (Rlt_dec g 0); simpl.
  - destruct (Rlt_dec 0 0); [lra | ].
    eexists. split; [reflexivity | apply sqrt_pos].
  - destruct (Rlt_dec g 0); [lra | ].
    eexists. split; [reflexivity | apply sqrt_pos].
Qed.

Lemma sample_bar_positive (d : Z) (c v : R) :
  1 < c -> positive_bar (sample_bar d c v).
Proof.
  intros Hc. exists c, (c + 1), (c - 1), c. simpl.
  repeat split; lra.
Defined.

Lemma vol_gk_nonneg_witness :
  exists r,
    nth_error (indicator_frame (ewm_alpha 10) (window 14) (window 20)
                 (window 20) three_bars) 1 = Some r /\
    exists v, Vol_GK r = Fin v /\ 0 <= v.
Proof.
  eexists. split; [reflexivity | ].
  apply (vol_gk_nonneg three_bars 10 14 20 20
           (indicator_frame (ewm_alpha 10) (window 14) (window 20)
              (window 20) three_bars)).
  - apply compute_indicators_accepted; [unfold accepted; lia | discriminate].
  - right; left. reflexivity.
  - apply sample_bar_positive. lra.
Defined.

(** ** Windows over real columns *)

Lemma In_firstn_list {A : Type} (n : nat) (l : list A) (a : A) :
  In a (firstn n l) -> In a l.
Proof.
  revert l. induction n as [ | n IH]; intros [ | x l] Hin; simpl in *;
    try contradiction.
  destruct Hin as [-> | Hin]; [left; reflexivity | right; apply IH; exact Hin].
Qed.

Lemma In_skipn_list {A : Type} (n : nat) (l : list A) (a : A) :
  In a (skipn n l) -> In a l.
Proof.
  revert l. induction n as [ | n IH]; intros [ | x l] Hin; simpl in *;
    try contradiction; auto.
Qed.

Lemma window_at_In (w t : nat) (xs : column) (a : fnum) :
  In a (window_at w t xs) -> In a xs.
Proof.
  unfold window_at. intros Hin.
  apply In_skipn_list in Hin. apply In_firstn_list in Hin. exact Hin.
Qed.

Lemma window_at_length_eq (w t : nat) (xs : column) :
  (t < length xs)%nat -> length (window_at w t xs) = Nat.min w (t + 1).
Proof.
  intros Ht. unfold window_at. rewrite length_skipn, length_firstn. lia.
Qed.

Lemma observations_In (l : column) (x : R) :
  In x (observations l) -> In (Fin x) l.
Proof.
  induction l as [ | a l IH]; simpl; [auto | ].
  destruct a as [ | | | y]; simpl; intros Hin; auto.
  destruct Hin as [-> | Hin]; auto.
Qed.

Lemma observations_of_real (l : column) :
  (forall a, In a l -> is_finite a = true) ->
  length (observations l) = length l.
Proof.
  induction l as [ | a l IH]; intros Hall; simpl; [reflexivity | ].
  pose proof (Hall a (or_introl eq_refl)) as Ha.
  destruct a as [ | | | y]; try discriminate Ha.
  simpl. f_equal. apply IH. intros b Hb. apply Hall. right. exact Hb.
Qed.

(** A cell that is not a real leaves its window short of observations. *)
Lemma observations_short (l : column) (a : fnum) :
  In a l -> is_finite a = false ->
  (length (observations l) < length l)%nat.
Proof.
  induction l as [ | b l IH]; intros Hin Ha; [contradiction | ].
  pose proof (observations_length l) as Hle.
  destruct Hin as [-> | Hin].
  - destruct a; simpl in *; try lia; discriminate Ha.
  - specialize (IH Hin Ha). destruct b; simpl; lia.
Qed.

(** ** The average true range *)

Lemma map2_nth_error {A B C : Type} (f : A -> B -> C) (l : list A)
  (l' : list B) (t : nat) (a : A) (b : B) :
  nth_error l t = Some a -> nth_error l' t = Some b ->
  nth_error (map2 f l l') t = Some (f a b).
Proof.
  revert l l'. induction t as [ | t IH]; intros [ | x l] [ | y l'] Ha Hb;
    simpl in *; try discriminate.
  - injection Ha as ->. injection Hb as ->. reflexivity.
  - apply IH; assumption.
Qed.

Lemma tr_col_cell (df : list bar) (t : nat) (b : bar) :
  nth_error df t = Some b ->
  cell (tr_col df) t
  = _true_range b (if (t <? 1)%nat then NaN
                   else cell (map Close df) (t - 1)).
Proof.
  intros Hb.
  assert (Ht : (t < length df)%nat).
  { apply nth_error_Some. rewrite Hb. discriminate. }
  unfold tr_col, cell at 1. apply nth_error_nth.
  apply map2_nth_error; [exact Hb | ].
  rewrite <- (cell_shift 1 (map Close df) t)
    by (rewrite length_map; exact Ht).
  apply nth_error_nth'. rewrite shift_length, length_map. exact Ht.
Qed.

Lemma tr_col_length (df : list bar) : length (tr_col df) = length df.
Proof.
  unfold tr_col. rewrite map2_length, shift_length, length_map. lia.
Qed.

(** On bars of real prices every true range is a real. *)
Lemma tr_col_real (df : list bar) :
  (forall b, In b df -> real_bar b) ->
  forall a, In a (tr_col df) -> is_finite a = true.
Proof.
  intros Hreal a Hin.
  destruct (In_nth _ _ NaN Hin) as [t [Ht <-]].
  rewrite tr_col_length in Ht.
  destruct (nth_error df t) as [b | ] eqn:Hb;
    [ | apply nth_error_None in Hb; lia].
  fold (cell (tr_col df) t). rewrite (tr_col_cell df t b Hb).
  destruct (Hreal b (nth_error_In _ _ Hb)) as (_ & Hh & Hl & _).
  unfold _true_range.
  destruct (High b) as [ | | | h]; try discriminate.
  destruct (Low b) as [ | | | l]; try discriminate.
  destruct (Nat.ltb_spec t 1) as [H0 | H1].
  - reflexivity.
  - destruct (nth_error df (t - 1)) as [prev | ] eqn:Hprev;
      [ | apply nth_error_None in Hprev; lia].
    rewrite (cell_map_col Close df (t - 1) prev Hprev).
    destruct (Hreal prev (nth_error_In _ _ Hprev)) as (_ & _ & _ & Hc & _).
    destruct (Close prev) as [ | | | p]; try discriminate.
    unfold py_max3. simpl.
    repeat match goal with
           | |- context [Rlt_dec ?x ?y] => destruct (Rlt_dec x y)
           end; reflexivity.
Qed.

(** On bars of real prices the average true range is defined exactly from
    row [atr_win - 1] on, for a window of at least one row: the true range
    of the first row is [High - Low] and counts as an observation. *)
Theorem atr_warm_up (df : list bar)
  (hl atr_win vol_win vov_win : Z) (out : list indicator_row)
  (t : nat) (r : indicator_row) :
  compute_indicators df hl atr_win vol_win vov_win = Ok out ->
  (forall b, In b df -> real_bar b) ->
  nth_error out t = Some r ->
  (is_finite (ATR r) = true <-> (1 <= atr_win <= Z.of_nat t + 1)%Z).
Proof.
  intros Hrun Hreal Hrow.
  apply compute_indicators_Ok_inv in Hrun.
  destruct Hrun as [(_ & Hatr & _) ->].
  apply indicator_frame_row in Hrow. destruct Hrow as [Hb ->].
  assert (Ht : (t < length df)%nat).
  { apply nth_error_Some. rewrite Hb. discriminate. }
  cbn [ATR]. unfold ATR_col, window. cbn [fst snd].
  rewrite cell_rolling_mean by (rewrite tr_col_length; exact Ht).
  set (w := Z.to_nat atr_win).
  assert (Hobs : length (observations (window_at w t (tr_col df)))
                 = Nat.min w (t + 1)).
  { rewrite observations_of_real.
    - apply window_at_length_eq. rewrite tr_col_length. exact Ht.
    - intros a Ha. apply (tr_col_real df Hreal).
      apply (window_at_In w t). exact Ha. }
  unfold calc_mean. rewrite Hobs.
  destruct (Nat.leb_spec w (Nat.min w (t + 1))) as [H1 | H1];
    destruct (Nat.ltb_spec 0 (Nat.min w (t + 1))) as [H2 | H2];
    simpl; split; intros H; try reflexivity; try discriminate; lia.
Qed.

Lemma three_bars_real : forall b, In b three_bars -> real_bar b.
Proof.
  intros b [<- | [<- | [<- | []]]]; unfold real_bar; simpl; auto.
Defined.

Lemma atr_warm_up_witness :
  exists r,
    nth_error (indicator_frame (ewm_alpha 10) (window 2) (window 20)
                 (window 20) three_bars) 1 = Some r /\
    is_finite (ATR r) = true.
Proof.
  eexists. split; [reflexivity | ].
  apply (atr_warm_up three_bars 10 2 20 20
           (indicator_frame (ewm_alpha 10) (window 2) (window 20)
              (window 20) three_bars) 1).
  - apply compute_indicators_accepted; [unfold accepted; lia | discriminate].
  - exact three_bars_real.
  - reflexivity.
  - lia.
Defined.

(** ** Constant columns *)

Lemma Rsum_constant (v : R) (l : list R) :
  (forall x, In x l -> x = v) -> Rsum l = INR (length l) * v.
Proof.
  induction l as [ | y l IH]; intros Hall.
  - simpl. ring.
  - cbn [Rsum fold_right length]. fold (Rsum l).
    rewrite S_INR, IH by (intros x Hx; apply Hall; right; exact Hx).
    rewrite (Hall y) by (left; reflexivity). ring.
Qed.

Lemma ssqdm_constant (v : R) (l : list R) :
  (forall x, In x l -> x = v) -> l <> [] -> ssqdm l = 0.
Proof.
  intros Hall Hne.
  assert (Hlen : 0 < INR (length l)).
  { apply lt_0_INR. destruct l; [contradiction | simpl; lia]. }
  assert (Hmean : Rmean l = v).
  { unfold Rmean. rewrite (Rsum_constant v l Hall). field. lra. }
  unfold ssqdm. rewrite Hmean.
  assert (Hzero : forall l', (forall x, In x l' -> x = v) ->
            Rsum (map (fun x => (x - v) * (x - v)) l') = 0).
  { induction l' as [ | y l' IH]; intros Hall'; simpl; [reflexivity | ].
    rewrite IH by (intros x Hx; apply Hall'; right; exact Hx).
    rewrite (Hall' y) by (left; reflexivity). ring. }
  apply Hzero. exact Hall.
Qed.

(** The z-score of a constant column is missing in every row. *)
Lemma zscore_constant (w : nat) (xs : column) (v : R) (t : nat) :
  (forall a, In a xs -> a = Fin v) -> cell (zscore (w, w) xs) t = NaN.
Proof.
  intros Hconst.
  destruct (Nat.lt_ge_cases t (length xs)) as [Ht | Ht];
    [ | apply cell_overflow; rewrite zscore_length; exact Ht].
  set (obs := observations (window_at w t xs)).
  assert (Hobs : forall x, In x obs -> x = v).
  { intros x Hx. apply observations_In in Hx. apply window_at_In in Hx.
    apply Hconst in Hx. injection Hx as Hx. exact Hx. }
  destruct (calc_var w 1 obs) as [ | | | var] eqn:Hvar.
  - rewrite cell_zscore by exact Ht. cbn [fst snd].
    rewrite (cell_rolling_std w w xs t Ht). fold obs. rewrite Hvar.
    simpl. apply fdiv_nan_r.
  - unfold calc_var in Hvar.
    destruct ((Nat.max w 1 <=? length obs) && (1 <? length obs))%nat;
      [destruct (length obs =? 1)%nat | ]; discriminate Hvar.
  - unfold calc_var in Hvar.
    destruct ((Nat.max w 1 <=? length obs) && (1 <? length obs))%nat;
      [destruct (length obs =? 1)%nat | ]; discriminate Hvar.
  - apply zscore_undefined. right.
    rewrite (cell_rolling_std w w xs t Ht). fold obs. rewrite Hvar.
    apply zsqrt_zero.
    unfold calc_var in Hvar.
    destruct ((Nat.max w 1 <=? length obs) && (1 <? length obs))%nat eqn:Hc;
      [ | discriminate Hvar].
    destruct (length obs =? 1)%nat; injection Hvar as <-; [reflexivity | ].
    rewrite (ssqdm_constant v obs Hobs).
    + unfold Rdiv. ring.
    + intros Hnil. rewrite Hnil in Hc. simpl in Hc.
      rewrite andb_false_r in Hc. discriminate Hc.
Qed.

Lemma filter_all_false {A : Type} (f : A -> bool) (l : list A) :
  (forall a, In a l -> f a = false) -> filter f l = [].
Proof.
  induction l as [ | a l IH]; intros Hall; simpl; [reflexivity | ].
  rewrite (Hall a) by (left; reflexivity).
  apply IH. intros a' Ha'. apply Hall. right. exact Ha'.
Qed.

(** A series whose volume never changes has no volume z-score at all, and
    its projected table is empty whatever the prices and the settings. *)
Theorem constant_volume_empties_table (df : list bar) (c : config)
  (rows : list risk_row) (v : R) :
  run_core df c = Ok rows ->
  (forall b, In b df -> Volume b = Fin v) ->
  (forall r, In r rows -> VolZ (ind r) = NaN) /\
  make_table rows = [].
Proof.
  intros Hrun Hvol. unfold run_core in Hrun.
  destruct (compute_indicators df (cfg_hl c) (cfg_atr_win c)
              (cfg_vol_win c) (cfg_vov_win c)) as [out | msg] eqn:Hci;
    [ | discriminate Hrun].
  simpl in Hrun. injection Hrun as <-.
  apply compute_indicators_Ok_inv in Hci. destruct Hci as [_ Hout].
  assert (Hz : forall r, In r (build_risk_range out (cfg_z c) (cfg_w_ewm c)
                                 (cfg_w_gk c) (cfg_w_atr c) (cfg_vol_adj c)
                                 (cfg_vov_adj c) (cfg_tilt_gamma c)) ->
                         VolZ (ind r) = NaN).
  { intros r Hr. apply build_risk_range_In in Hr.
    destruct Hr as [r0 [Hr0 ->]]. cbn [ind risk_range_row].
    rewrite Hout in Hr0. apply In_nth_error in Hr0.
    destruct Hr0 as [t Hrow].
    apply indicator_frame_row in Hrow. destruct Hrow as [_ ->].
    cbn [VolZ]. unfold VolZ_col, window.
    apply (zscore_constant _ _ v). intros a Ha.
    apply in_map_iff in Ha. destruct Ha as [b [<- Hb]].
    apply Hvol. exact Hb. }
  split; [exact Hz | ].
  unfold make_table. rewrite filter_all_false; [reflexivity | ].
  intros r Hr. unfold complete, selected_cells.
  rewrite (Hz r Hr). simpl. rewrite !andb_false_r. reflexivity.
Qed.

Lemma constant_volume_empties_table_witness :
  exists rows,
    run_core three_bars (default_config 1.65) = Ok rows /\
    make_table rows = [].
Proof.
  eexists. split.
  - unfold run_core.
    rewrite compute_indicators_accepted;
      [reflexivity | unfold accepted; simpl; lia | discriminate].
  - apply (constant_volume_empties_table three_bars
             (default_config 1.65) _ 1000).
    + unfold run_core.
      rewrite compute_indicators_accepted;
        [reflexivity | unfold accepted; simpl; lia | discriminate].
    + intros b [<- | [<- | [<- | []]]]; reflexivity.
Defined.

(** ** Warm-up of the rolling columns *)

Lemma rolling_mean_incomplete (w : nat) (xs : column) (t : nat) :
  window_incomplete w t xs -> cell (rolling_mean w w xs) t = NaN.
Proof.
  intros Hinc.
  destruct (Nat.lt_ge_cases t (length xs)) as [Ht | Ht];
    [ | apply cell_overflow; rewrite rolling_mean_length; exact Ht].
  rewrite cell_rolling_mean by exact Ht. unfold calc_mean.
  unfold window_incomplete in Hinc.
  destruct (Nat.leb_spec w (length (observations (window_at w t xs))));
    [lia | reflexivity].
Qed.

Lemma rolling_std_incomplete (w : nat) (xs : column) (t : nat) :
  window_incomplete w t xs -> cell (rolling_std w w xs) t = NaN.
Proof.
  intros Hinc.
  destruct (Nat.lt_ge_cases t (length xs)) as [Ht | Ht];
    [ | apply cell_overflow; rewrite rolling_std_length; exact Ht].
  rewrite cell_rolling_std by exact Ht. unfold calc_var.
  unfold window_incomplete in Hinc.
  destruct (Nat.leb_spec (Nat.max w 1)
              (length (observations (window_at w t xs))));
    [lia | reflexivity].
Qed.

(** A window that reaches before the first row is incomplete. *)
Lemma window_incomplete_early (w t : nat) (xs : column) :
  (t + 1 < w)%nat -> window_incomplete w t xs.
Proof.
  intros Ht. unfold window_incomplete.
  pose proof (observations_length (window_at w t xs)) as Hle.
  unfold window_at in *. rewrite length_skipn, length_firstn in Hle. lia.
Qed.

(** A window over a cell that is not a real is incomplete. *)
Lemma window_incomplete_missing (w t j : nat) (xs : column) :
  (t < length xs)%nat -> (t + 1 - w <= j <= t)%nat ->
  is_finite (cell xs j) = false ->
  window_incomplete w t xs.
Proof.
  intros Ht Hj Hna. unfold window_incomplete.
  assert (Hin : In (cell xs j) (window_at w t xs)).
  { unfold window_at, cell.
    replace (nth j xs NaN)
      with (nth (j - (t + 1 - w))
              (skipn (t + 1 - w) (firstn (t + 1) xs)) NaN).
    - apply nth_In. rewrite length_skipn, length_firstn. lia.
    - rewrite nth_skipn, nth_firstn.
      replace (t + 1 - w + (j - (t + 1 - w)))%nat with j by lia.
      destruct (Nat.ltb_spec j (t + 1)); [reflexivity | lia]. }
  pose proof (observations_short _ _ Hin Hna) as Hshort.
  pose proof (window_at_length w t xs) as Hlen. lia.
Qed.

(** The vol-of-vol column is missing up to row [w]: its window then still
    covers one of the two rows without volatility. *)
Lemma vov_col_warm_up (alpha : R) (w : nat) (df : list bar) (t : nat) :
  (t <= w)%nat -> cell (vov_col alpha (w, w) df) t = NaN.
Proof.
  intros Ht. unfold vov_col. cbn [fst snd].
  destruct (Nat.lt_ge_cases t (length (Vol_EWMA_col alpha df)))
    as [Hlen | Hlen];
    [ | apply cell_overflow; rewrite rolling_std_length; exact Hlen].
  destruct (Nat.eq_dec w 0) as [-> | Hw].
  - rewrite cell_rolling_std by exact Hlen.
    assert (Hempty : window_at 0 t (Vol_EWMA_col alpha df) = []).
    { apply length_zero_iff_nil.
      pose proof (window_at_length 0 t (Vol_EWMA_col alpha df)). lia. }
    rewrite Hempty. reflexivity.
  - apply rolling_std_incomplete.
    destruct (Nat.lt_ge_cases (t + 1) w) as [Hearly | Hfull];
      [apply window_incomplete_early; exact Hearly | ].
    apply (window_incomplete_missing w t (Nat.min t 1));
      [exact Hlen | lia | ].
    rewrite Vol_EWMA_first_two by lia. reflexivity.
Qed.

Lemma VoV_Z_cell_warm_up (alpha : R) (w : nat) (df : list bar) (t : nat) :
  (t < 2 * w)%nat -> cell (VoV_Z_col alpha (w, w) df) t = NaN.
Proof.
  intros Htw. unfold VoV_Z_col.
  destruct (Nat.lt_ge_cases t (length (vov_col alpha (w, w) df)))
    as [Hlen | Hlen];
    [ | apply cell_overflow; rewrite zscore_length; exact Hlen].
  apply zscore_undefined. left.
  destruct (Nat.lt_ge_cases (t + 1) w) as [Hearly | Hfull];
    [apply window_incomplete_early; exact Hearly | ].
  apply (window_incomplete_missing w t (t + 1 - w));
    [exact Hlen | lia | ].
  rewrite vov_col_warm_up by lia. reflexivity.
Qed.

Lemma ROC_20d_cell_warm_up (df : list bar) (t : nat) :
  (t < 20)%nat -> cell (ROC_20d_col df) t = NaN.
Proof.
  intros Ht. unfold ROC_20d_col.
  destruct (Nat.lt_ge_cases t (length (map Close df))) as [Hlen | Hlen];
    [ | apply cell_overflow; rewrite pct_change_length; exact Hlen].
  rewrite cell_pct_change by exact Hlen.
  destruct (Nat.ltb_spec t 20); [reflexivity | lia].
Qed.

(** The vol-of-vol z-score is missing in the first [2 * vov_win] rows,
    whatever the prices. *)
Theorem vov_z_warm_up (df : list bar)
  (hl atr_win vol_win vov_win : Z) (out : list indicator_row)
  (t : nat) (r : indicator_row) :
  compute_indicators df hl atr_win vol_win vov_win = Ok out ->
  nth_error out t = Some r ->
  (Z.of_nat t < 2 * vov_win)%Z ->
  VoV_Z r = NaN.
Proof.
  intros Hrun Hrow Ht.
  apply compute_indicators_Ok_inv in Hrun. destruct Hrun as [_ ->].
  apply indicator_frame_row in Hrow. destruct Hrow as [_ ->].
  cbn [VoV_Z]. unfold window. apply VoV_Z_cell_warm_up. lia.
Qed.

Lemma vov_z_warm_up_witness :
  exists r,
    nth_error (indicator_frame (ewm_alpha 10) (window 14) (window 20)
                 (window 1) three_bars) 1 = Some r /\
    VoV_Z r = NaN.
Proof.
  eexists. split; [reflexivity | ].
  apply (vov_z_warm_up three_bars 10 14 20 1
           (indicator_frame (ewm_alpha 10) (window 14) (window 20)
              (window 1) three_bars) 1).
  - apply compute_indicators_accepted; [unfold accepted; lia | discriminate].
  - reflexivity.
  - lia.
Defined.

(** ** Warm-up rows never reach the table *)

Lemma incomplete_of_missing (r : risk_row) :
  In NaN (selected_cells r) -> complete r = false.
Proof.
  intros Hin. destruct (complete r) eqn:Hc; [ | reflexivity].
  exfalso. exact (complete_cells r Hc NaN Hin eq_refl).
Qed.

Lemma filter_prefix_length {A : Type} (f : A -> bool) (l : list A)
  (n : nat) :
  (forall t a, (t < n)%nat -> nth_error l t = Some a -> f a = false) ->
  (length (filter f l) <= length l - n)%nat.
Proof.
  intros Hpre. rewrite <- (firstn_skipn n l) at 1.
  rewrite filter_app, length_app.
  rewrite (filter_all_false f (firstn n l)).
  - simpl. pose proof (filter_length_le f (skipn n l)) as Hle.
    rewrite length_skipn in Hle. exact Hle.
  - intros a Ha. apply In_nth_error in Ha. destruct Ha as [t Ht].
    rewrite nth_error_firstn in Ht.
    destruct (Nat.ltb_spec t n) as [Hlt | Hge]; [ | discriminate Ht].
    apply (Hpre t a Hlt Ht).
Qed.

(** The table holds none of the rows of the warm-up: whenever the core
    returns a frame, [make_table] of it has at most [length df - n] rows,
    where [n] is the greatest of 20 (the lookback of [ROC_20d]),
    [2 * vov_win], [vol_win - 1] and [atr_win - 1].  In particular the
    table of the frame of a series of at most twenty rows has no row. *)
Theorem table_skips_warm_up (df : list bar) (c : config)
  (rows : list risk_row) :
  run_core df c = Ok rows ->
  let n := Nat.max (Nat.max 20 (2 * Z.to_nat (cfg_vov_win c)))
                   (Nat.max (Z.to_nat (cfg_vol_win c) - 1)
                            (Z.to_nat (cfg_atr_win c) - 1)) in
  (length (make_table rows) <= length df - n)%nat /\
  ((length df <= 20)%nat -> make_table rows = []).
Proof.
  intros Hrun n. unfold run_core in Hrun.
  destruct (compute_indicators df (cfg_hl c) (cfg_atr_win c)
              (cfg_vol_win c) (cfg_vov_win c)) as [out | msg] eqn:Hci;
    [ | discriminate Hrun].
  simpl in Hrun. injection Hrun as <-.
  pose proof (compute_indicators_Ok_inv _ _ _ _ _ _ Hci) as [Hacc Hout].
  set (rows := build_risk_range out (cfg_z c) (cfg_w_ewm c) (cfg_w_gk c)
                 (cfg_w_atr c) (cfg_vol_adj c) (cfg_vov_adj c)
                 (cfg_tilt_gamma c)).
  assert (Hlen : length rows = length df).
  { unfold rows. rewrite build_risk_range_length, Hout.
    apply indicator_frame_length. }
  assert (Hmain : (length (make_table rows) <= length df - n)%nat).
  { unfold make_table. rewrite length_map, <- Hlen.
    apply filter_prefix_length. intros t r Ht Hrow.
    unfold rows in Hrow. rewrite build_risk_range_nth_error in Hrow.
    destruct (nth_error out t) as [r0 | ] eqn:Hr0; [ | discriminate Hrow].
    simpl in Hrow. injection Hrow as <-.
    apply incomplete_of_missing. unfold selected_cells.
    cbn [ind risk_range_row].
    rewrite Hout in Hr0. apply indicator_frame_row in Hr0.
    destruct Hr0 as [Hb Hr0].
    assert (Hin : (t < length df)%nat).
    { apply nth_error_Some. rewrite Hb. discriminate. }
    destruct (Nat.lt_ge_cases t 20) as [H20 | H20].
    { assert (Hz : ROC_20d r0 = NaN).
      { rewrite Hr0. cbn [ROC_20d]. apply ROC_20d_cell_warm_up. exact H20. }
      rewrite Hz. simpl. tauto. }
    destruct (Nat.lt_ge_cases t (2 * Z.to_nat (cfg_vov_win c)))
      as [Hvv | Hvv].
    { assert (Hz : VoV_Z r0 = NaN).
      { rewrite Hr0. cbn [VoV_Z]. unfold window.
        apply VoV_Z_cell_warm_up. exact Hvv. }
      rewrite Hz. simpl. tauto. }
    destruct (Nat.lt_ge_cases (t + 1) (Z.to_nat (cfg_vol_win c)))
      as [Hv | Hv].
    { assert (Hz : VolZ r0 = NaN).
      { rewrite Hr0. cbn [VolZ]. unfold VolZ_col, window.
        apply zscore_undefined. left.
        apply window_incomplete_early. exact Hv. }
      rewrite Hz. simpl. tauto. }
    assert (Ha : (t + 1 < Z.to_nat (cfg_atr_win c))%nat) by lia.
    assert (Hz : Vol_ATR r0 = NaN).
    { rewrite Hr0. cbn [Vol_ATR]. unfold Vol_ATR_col.
      rewrite cell_map2.
      - unfold ATR_col, window. cbn [fst snd].
        rewrite rolling_mean_incomplete
          by (apply window_incomplete_early; exact Ha).
        reflexivity.
      - unfold ATR_col. rewrite rolling_mean_length, tr_col_length.
        exact Hin.
      - rewrite length_map. exact Hin. }
    rewrite Hz. simpl. tauto. }
  split; [exact Hmain | ].
  intros Hshort.
  apply length_zero_iff_nil. lia.
Qed.

Lemma table_skips_warm_up_witness :
  exists rows,
    run_core three_bars (default_config 1.65) = Ok rows /\
    (length (make_table rows) <= length three_bars - 40)%nat.
Proof.
  eexists. split.
  - unfold run_core.
    rewrite compute_indicators_accepted;
      [reflexivity | unfold accepted; simpl; lia | discriminate].
  - apply (table_skips_warm_up three_bars (default_config 1.65)).
    unfold run_core.
    rewrite compute_indicators_accepted;
      [reflexivity | unfold accepted; simpl; lia | discriminate].
Defined.

(** ** When the floor at zero acts *)

Lemma true_range_real (row : bar) (h l p : R) :
  High row = Fin h -> Low row = Fin l ->
  _true_range row (Fin p)
  = Fin (Rmax (Rmax (h - l) (Rabs (h - p))) (Rabs (l - p))).
Proof.
  intros Hh Hl. unfold _true_range. rewrite Hh, Hl. simpl.
  unfold py_max3, fgt.
  destruct (Rlt_dec (h - l) (Rabs (h - p))) as [H1 | H1].
  - rewrite (Rmax_right (h - l)) by lra.
    destruct (Rlt_dec (Rabs (h - p)) (Rabs (l - p))) as [H2 | H2].
    + rewrite Rmax_right by lra. reflexivity.
    + rewrite Rmax_left by lra. reflexivity.
  - rewrite (Rmax_left (h - l)) by lra.
    destruct (Rlt_dec (h - l) (Rabs (l - p))) as [H2 | H2].
    + rewrite Rmax_right by lra. reflexivity.
    + rewrite Rmax_left by lra. reflexivity.
Qed.

(** On ordered bars every true range is a non-negative real. *)
Lemma tr_col_nonneg (df : list bar) :
  (forall b, In b df -> ordered_bar b) ->
  forall a, In a (tr_col df) -> exists x, a = Fin x /\ 0 <= x.
Proof.
  intros Hord a Hin.
  destruct (In_nth _ _ NaN Hin) as [t [Ht <-]].
  rewrite tr_col_length in Ht.
  destruct (nth_error df t) as [b | ] eqn:Hb;
    [ | apply nth_error_None in Hb; lia].
  fold (cell (tr_col df) t). rewrite (tr_col_cell df t b Hb).
  destruct (Hord b (nth_error_In _ _ Hb))
    as [(o & h & l & c & Ho & Hh & Hl & Hc & _) Hlh].
  rewrite Hh, Hl in Hlh. simpl in Hlh.
  destruct (Nat.ltb_spec t 1) as [H0 | H1].
  - unfold _true_range. rewrite Hh, Hl. simpl.
    exists (h - l). split; [reflexivity | lra].
  - destruct (nth_error df (t - 1)) as [prev | ] eqn:Hprev;
      [ | apply nth_error_None in Hprev; lia].
    rewrite (cell_map_col Close df (t - 1) prev Hprev).
    destruct (Hord prev (nth_error_In _ _ Hprev))
      as [(_ & _ & _ & p & _ & _ & _ & Hp & _) _].
    rewrite Hp, (true_range_real b h l p Hh Hl).
    eexists. split; [reflexivity | ].
    pose proof (Rabs_pos (l - p)) as Hpos.
    pose proof (Rmax_r (Rmax (h - l) (Rabs (h - p))) (Rabs (l - p))).
    lra.
Qed.

Lemma Rmean_nonneg (l : list R) :
  (forall x, In x l -> 0 <= x) -> 0 <= Rmean l.
Proof.
  intros Hall.
  assert (Hsum : 0 <= Rsum l).
  { induction l as [ | y l IH]; simpl; [lra | ].
    pose proof (Hall y (or_introl eq_refl)).
    assert (0 <= Rsum l) by (apply IH; intros x Hx; apply Hall; right; auto).
    unfold Rsum in *. lra. }
  unfold Rmean. destruct l as [ | y l].
  - simpl. unfold Rdiv. rewrite Rmult_0_l. lra.
  - apply Rmult_le_pos; [exact Hsum | ].
    apply Rlt_le, Rinv_0_lt_compat, lt_0_INR. simpl. lia.
Qed.

Lemma Vol_ATR_cell_nonneg (atr : nat * nat) (df : list bar) (t : nat) :
  (forall b, In b df -> ordered_bar b) ->
  nan_or_nonneg_real (cell (Vol_ATR_col (snd atr, snd atr) df) t).
Proof.
  intros Hord.
  destruct (nth_error df t) as [b | ] eqn:Hb.
  - assert (Ht : (t < length df)%nat).
    { apply nth_error_Some. rewrite Hb. discriminate. }
    unfold Vol_ATR_col.
    rewrite cell_map2;
      [ | unfold ATR_col; rewrite rolling_mean_length, tr_col_length;
          exact Ht
        | rewrite length_map; exact Ht ].
    rewrite (cell_map_col Close df t b Hb).
    destruct (Hord b (nth_error_In _ _ Hb))
      as [(_ & _ & _ & c & _ & _ & _ & Hc & _ & _ & _ & Hc0) _].
    rewrite Hc. unfold ATR_col. cbn [fst snd].
    rewrite cell_rolling_mean by (rewrite tr_col_length; exact Ht).
    unfold calc_mean.
    destruct ((snd atr <=? _) && (0 <? _))%nat; [ | left; reflexivity].
    right. simpl. destruct (Req_dec_T c 0); [lra | ].
    eexists. split; [reflexivity | ].
    apply Rmult_le_pos; [ | apply Rlt_le, Rinv_0_lt_compat; exact Hc0].
    apply Rmean_nonneg. intros x Hx.
    apply observations_In in Hx. apply window_at_In in Hx.
    destruct (tr_col_nonneg df Hord _ Hx) as [y [Hy Hy0]].
    injection Hy as ->. exact Hy0.
  - left. apply cell_overflow.
    apply nth_error_None in Hb.
    unfold Vol_ATR_col, ATR_col.
    rewrite map2_length, rolling_mean_length, tr_col_length, length_map.
    lia.
Qed.

Lemma Vol_EWMA_cell_nonneg (alpha : R) (df : list bar) (t : nat) :
  nan_or_nonneg_real (cell (Vol_EWMA_col alpha df) t).
Proof.
  unfold Vol_EWMA_col, ewm_std.
  rewrite cell_map_zsqrt. apply zsqrt_of_real_nonneg.
  apply (cell_Forall (fun a => a = NaN \/ exists v, a = Fin v));
    [auto | ].
  unfold ewmcov. destruct (map ewm_prep (LogRet_col df)) as [ | x0 rest];
    constructor; [auto | apply ewm_scan_real].
Qed.

Lemma Vol_GK_of_positive_bar (b : bar) :
  positive_bar b ->
  nan_or_nonneg_real (np_sqrt (np_maximum0 (gk_var b))).
Proof.
  intros Hpos. destruct (gk_var_real _ Hpos) as [g ->]. simpl. right.
  destruct (Rlt_dec g 0); simpl.
  - destruct (Rlt_dec 0 0); [lra | ].
    eexists. split; [reflexivity | apply sqrt_pos].
  - destruct (Rlt_dec g 0); [lra | ].
    eexists. split; [reflexivity | apply sqrt_pos].
Qed.

Lemma normalize_weights_nonneg (w_ewm w_gk w_atr : R) :
  0 <= w_ewm -> 0 <= w_gk -> 0 <= w_atr ->
  0 <= fst (fst (normalize_weights w_ewm w_gk w_atr)) /\
  0 <= snd (fst (normalize_weights w_ewm w_gk w_atr)) /\
  0 <= snd (normalize_weights w_ewm w_gk w_atr).
Proof.
  intros He Hg Ha. unfold normalize_weights.
  destruct (Req_dec_T (w_ewm + w_gk + w_atr) 0) as [H0 | Hne]; simpl.
  - repeat split; lra.
  - assert (Hi : 0 < / (w_ewm + w_gk + w_atr))
      by (apply Rinv_0_lt_compat; lra).
    unfold Rdiv. repeat split; apply Rmult_le_pos; lra.
Qed.

(** A blend with non-negative weights of cells that are missing or
    non-negative reals is missing or a non-negative real. *)
Lemma blend_nonneg (a b g : R) (x y z : fnum) :
  0 <= a -> 0 <= b -> 0 <= g ->
  nan_or_nonneg_real x -> nan_or_nonneg_real y -> nan_or_nonneg_real z ->
  nan_or_nonneg_real
    (fadd (fadd (fmul (Fin a) x) (fmul (Fin b) y)) (fmul (Fin g) z)).
Proof.
  intros Ha Hb Hg [-> | [u [-> Hu]]] [-> | [v [-> Hv]]] [-> | [w [-> Hw]]];
    simpl; try (left; reflexivity).
  right. eexists. split; [reflexivity | ].
  assert (0 <= a * u) by (apply Rmult_le_pos; assumption).
  assert (0 <= b * v) by (apply Rmult_le_pos; assumption).
  assert (0 <= g * w) by (apply Rmult_le_pos; assumption).
  lra.
Qed.

Lemma fmul_nan_or_nonneg (a b : fnum) :
  nan_or_nonneg a -> nan_or_nonneg b -> nan_or_nonneg (fmul a b).
Proof.
  unfold nan_or_nonneg.
  destruct a as [ | | | x], b as [ | | | y]; simpl;
    intros [Ha | Ha] [Hb | Hb]; try discriminate; try contradiction; auto.
  - destruct (Req_dec_T y 0) as [-> | Hy].
    + rewrite Rsign_zero. auto.
    + rewrite Rsign_pos by lra. simpl. auto.
  - destruct (Req_dec_T x 0) as [-> | Hx].
    + rewrite Rsign_zero. auto.
    + rewrite Rsign_pos by lra. simpl. auto.
  - right. apply Rmult_le_pos; assumption.
Qed.

Lemma clip_lower0_nan_or_nonneg (a : fnum) :
  nan_or_nonneg a -> clip_lower0 a = a.
Proof.
  intros [-> | Ha]; [reflexivity | apply clip_lower0_nonneg; exact Ha].
Qed.

Lemma run_core_Ok_inv (df : list bar) (c : config) (rows : list risk_row) :
  run_core df c = Ok rows ->
  rows = build_risk_range
           (indicator_frame (ewm_alpha (cfg_hl c)) (window (cfg_atr_win c))
              (window (cfg_vol_win c)) (window (cfg_vov_win c)) df)
           (cfg_z c) (cfg_w_ewm c) (cfg_w_gk c) (cfg_w_atr c)
           (cfg_vol_adj c) (cfg_vov_adj c) (cfg_tilt_gamma c).
Proof.
  unfold run_core. intros Hrun.
  destruct (compute_indicators df (cfg_hl c) (cfg_atr_win c)
              (cfg_vol_win c) (cfg_vov_win c)) as [out | msg] eqn:Hci;
    [ | discriminate Hrun].
  simpl in Hrun. injection Hrun as <-.
  apply compute_indicators_Ok_inv in Hci. destruct Hci as [_ ->].
  reflexivity.
Qed.

(** The volatility columns of the indicator frame of ordered bars are
    missing or non-negative reals. *)
Lemma indicator_frame_volatilities (alpha : R) (w : nat)
  (vol vov : nat * nat) (df : list bar) (r0 : indicator_row) :
  (forall b, In b df -> ordered_bar b) ->
  In r0 (indicator_frame alpha (w, w) vol vov df) ->
  nan_or_nonneg_real (Vol_EWMA r0) /\
  nan_or_nonneg_real (Vol_GK r0) /\
  nan_or_nonneg_real (Vol_ATR r0).
Proof.
  intros Hord Hin. apply In_nth_error in Hin. destruct Hin as [t Hrow].
  apply indicator_frame_row in Hrow. destruct Hrow as [Hb Hr0].
  rewrite Hr0. cbn [Vol_EWMA Vol_GK Vol_ATR]. split; [ | split].
  - apply Vol_EWMA_cell_nonneg.
  - unfold Vol_GK_col.
    rewrite (cell_map_col
               (fun row => np_sqrt (np_maximum0 (gk_var row))) df t _ Hb).
    apply Vol_GK_of_positive_bar. apply (Hord _ (nth_error_In _ _ Hb)).
  - apply (Vol_ATR_cell_nonneg (w, w)). exact Hord.
Qed.

(** C8.  In every row of the result of [build_risk_range] in which [VolZ]
    and [VoV_Z] are both exactly zero, [WidthPct] equals
    [z * Vol_Combined] exactly, for a confidence and blend weights that
    are not negative and volatility columns that are missing or
    non-negative reals.  Such are the columns [compute_indicators] returns
    for ordered bars, so the equation holds in every such row of the
    core's result. *)
Theorem neutral_regime_width :
  (forall (out : list indicator_row)
          (z w_ewm w_gk w_atr vol_adj vov_adj tilt_gamma : R) (r : risk_row),
      In r (build_risk_range out z w_ewm w_gk w_atr vol_adj vov_adj
              tilt_gamma) ->
      0 <= z -> 0 <= w_ewm -> 0 <= w_gk -> 0 <= w_atr ->
      nan_or_nonneg_real (Vol_EWMA (ind r)) ->
      nan_or_nonneg_real (Vol_GK (ind r)) ->
      nan_or_nonneg_real (Vol_ATR (ind r)) ->
      VolZ (ind r) = Fin 0 -> VoV_Z (ind r) = Fin 0 ->
      WidthPct r = fmul (Fin z) (Vol_Combined r)) /\
  (forall (df : list bar) (c : config) (rows : list risk_row)
          (r : risk_row),
      run_core df c = Ok rows ->
      (forall b, In b df -> ordered_bar b) ->
      0 <= cfg_z c ->
      0 <= cfg_w_ewm c -> 0 <= cfg_w_gk c -> 0 <= cfg_w_atr c ->
      In r rows ->
      VolZ (ind r) = Fin 0 -> VoV_Z (ind r) = Fin 0 ->
      WidthPct r = fmul (Fin (cfg_z c)) (Vol_Combined r)).
Proof.
  assert (Hbuild :
    forall (out : list indicator_row)
           (z w_ewm w_gk w_atr vol_adj vov_adj tilt_gamma : R) (r : risk_row),
      In r (build_risk_range out z w_ewm w_gk w_atr vol_adj vov_adj
              tilt_gamma) ->
      0 <= z -> 0 <= w_ewm -> 0 <= w_gk -> 0 <= w_atr ->
      nan_or_nonneg_real (Vol_EWMA (ind r)) ->
      nan_or_nonneg_real (Vol_GK (ind r)) ->
      nan_or_nonneg_real (Vol_ATR (ind r)) ->
      VolZ (ind r) = Fin 0 -> VoV_Z (ind r) = Fin 0 ->
      WidthPct r = fmul (Fin z) (Vol_Combined r)).
  { intros out z w_ewm w_gk w_atr vol_adj vov_adj tilt_gamma r
      Hin Hz He Hg Ha Hve Hvg Hva Hvz Hvvz.
    rewrite (neutral_regime_clip _ _ _ _ _ _ _ _ _ Hin Hvz Hvvz).
    apply clip_lower0_nan_or_nonneg.
    apply fmul_nan_or_nonneg; [right; exact Hz | ].
    apply build_risk_range_In in Hin. destruct Hin as [r0 [_ ->]].
    destruct (normalize_weights_nonneg _ _ _ He Hg Ha) as (Hwe & Hwg & Hwa).
    cbn [ind risk_range_row Vol_Combined] in *.
    destruct (blend_nonneg _ _ _ _ _ _ Hwe Hwg Hwa Hve Hvg Hva)
      as [-> | [x [-> Hx]]]; [left; reflexivity | right; exact Hx]. }
  split; [exact Hbuild | ].
  intros df c rows r Hrun Hord Hz He Hg Ha Hin Hvz Hvvz.
  pose proof (run_core_Ok_inv _ _ _ Hrun) as Hrows. rewrite Hrows in Hin.
  assert (Hcols : nan_or_nonneg_real (Vol_EWMA (ind r)) /\
                  nan_or_nonneg_real (Vol_GK (ind r)) /\
                  nan_or_nonneg_real (Vol_ATR (ind r))).
  { pose proof Hin as Hin'. apply build_risk_range_In in Hin'.
    destruct Hin' as [r0 [Hr0 ->]]. cbn [ind risk_range_row].
    unfold window in Hr0.
    apply (indicator_frame_volatilities _ _ _ _ df r0 Hord Hr0). }
  destruct Hcols as (Hve & Hvg & Hva).
  apply (Hbuild _ _ _ _ _ _ _ _ r Hin); assumption.
Qed.

Lemma neutral_regime_width_witness :
  let r := risk_range_row 1.65 (0.5 / 1) (0.3 / 1) (0.2 / 1) 0.15 0.10 0.10
             sample_row in
  Vol_Combined r <> NaN /\
  WidthPct r = fmul (Fin 1.65) (Vol_Combined r).
Proof.
  intros r. split; [unfold r; simpl; discriminate | ].
  apply (proj1 neutral_regime_width
           [sample_row] 1.65 0.5 0.3 0.2 0.15 0.10 0.10 r).
  - apply sample_row_built.
  - lra.
  - lra.
  - lra.
  - lra.
  - right. exists 0.01. split; [reflexivity | lra].
  - right. exists 0.01. split; [reflexivity | lra].
  - right. exists 0.02. split; [reflexivity | lra].
  - reflexivity.
  - reflexivity.
Defined.

(** On ordered bars, with a confidence and blend weights that are not
    negative, [Vol_Combined] is missing or a non-negative real in every
    row, and the floor at zero leaves the width as computed whenever both
    regime factors are non-negative: it acts only through a negative
    factor. *)
Theorem floor_acts_only_on_negative_regime (df : list bar) (c : config)
  (rows : list risk_row) (r : risk_row) :
  run_core df c = Ok rows ->
  (forall b, In b df -> ordered_bar b) ->
  0 <= cfg_z c ->
  0 <= cfg_w_ewm c -> 0 <= cfg_w_gk c -> 0 <= cfg_w_atr c ->
  In r rows ->
  nan_or_nonneg_real (Vol_Combined r) /\
  (fle (Fin 0) (vol_factor (cfg_vol_adj c) (ind r)) ->
   fle (Fin 0) (vov_factor (cfg_vov_adj c) (ind r)) ->
   WidthPct r
   = fmul (fmul (fmul (Fin (cfg_z c)) (Vol_Combined r))
                (vol_factor (cfg_vol_adj c) (ind r)))
          (vov_factor (cfg_vov_adj c) (ind r))).
Proof.
  intros Hrun Hord Hz He Hg Ha Hin. unfold run_core in Hrun.
  destruct (compute_indicators df (cfg_hl c) (cfg_atr_win c)
              (cfg_vol_win c) (cfg_vov_win c)) as [out | msg] eqn:Hci;
    [ | discriminate Hrun].
  simpl in Hrun. injection Hrun as <-.
  apply compute_indicators_Ok_inv in Hci. destruct Hci as [_ Hout].
  apply build_risk_range_In in Hin. destruct Hin as [r0 [Hr0 ->]].
  rewrite Hout in Hr0. apply In_nth_error in Hr0. destruct Hr0 as [t Hrow].
  apply indicator_frame_row in Hrow. destruct Hrow as [Hb Hr0].
  destruct (normalize_weights_nonneg _ _ _ He Hg Ha) as (Hwe & Hwg & Hwa).
  row_fields.
  set (we := fst (fst (normalize_weights (cfg_w_ewm c) (cfg_w_gk c)
                         (cfg_w_atr c)))) in *.
  set (wg := snd (fst (normalize_weights (cfg_w_ewm c) (cfg_w_gk c)
                         (cfg_w_atr c)))) in *.
  set (wa := snd (normalize_weights (cfg_w_ewm c) (cfg_w_gk c)
                    (cfg_w_atr c))) in *.
  assert (Hvc : nan_or_nonneg_real
                  (fadd (fadd (fmul (Fin we) (Vol_EWMA r0))
                              (fmul (Fin wg) (Vol_GK r0)))
                        (fmul (Fin wa) (Vol_ATR r0)))).
  { apply blend_nonneg; try assumption.
    - rewrite Hr0. cbn [Vol_EWMA]. apply Vol_EWMA_cell_nonneg.
    - rewrite Hr0. cbn [Vol_GK]. unfold Vol_GK_col.
      rewrite (cell_map_col
                 (fun row => np_sqrt (np_maximum0 (gk_var row))) df t _ Hb).
      apply Vol_GK_of_positive_bar.
      apply (Hord _ (nth_error_In _ _ Hb)).
    - rewrite Hr0. cbn [Vol_ATR]. unfold window.
      apply (Vol_ATR_cell_nonneg
               (Z.to_nat (cfg_atr_win c), Z.to_nat (cfg_atr_win c))).
      exact Hord. }
  split; [exact Hvc | ].
  intros Hvf Hvvf. apply clip_lower0_nan_or_nonneg.
  repeat apply fmul_nan_or_nonneg.
  - right. exact Hz.
  - destruct Hvc as [-> | [x [-> Hx]]]; [left; reflexivity | right; exact Hx].
  - right. exact Hvf.
  - right. exact Hvvf.
Qed.

Lemma three_bars_ordered : forall b, In b three_bars -> ordered_bar b.
Proof.
  intros b [<- | [<- | [<- | []]]]; (split;
    [apply sample_bar_positive; lra | simpl; lra]).
Defined.

Lemma three_bars_Vol_ATR_third :
  exists a, cell (Vol_ATR_col (2%nat, 2%nat) three_bars) 2 = Fin a.
Proof.
  unfold Vol_ATR_col.
  rewrite cell_map2;
    [ | unfold ATR_col; rewrite rolling_mean_length, tr_col_length;
        simpl; lia
      | simpl; lia ].
  unfold ATR_col. cbn [fst snd].
  rewrite cell_rolling_mean by (rewrite tr_col_length; simpl; lia).
  unfold tr_col, three_bars.
  cbn [map shift length repeat app firstn map2 Close sample_bar].
  rewrite (true_range_real _ (102 + 1) (102 - 1) 100) by reflexivity.
  rewrite (true_range_real _ (101 + 1) (101 - 1) 102) by reflexivity.
  cbn [window_at Nat.add Nat.sub firstn skipn observations calc_mean
       length Nat.leb Nat.ltb andb cell nth fdiv].
  destruct (Req_dec_T 101 0); [lra | ].
  eexists. reflexivity.
Qed.

Lemma floor_acts_only_on_negative_regime_witness :
  exists r,
    nth_error (build_risk_range
                 (indicator_frame (ewm_alpha 10) (window 2) (window 20)
                    (window 20) three_bars)
                 1.65 0.5 0.3 0.2 0.15 0.10 0.10) 2 = Some r /\
    VolZ (ind r) = NaN /\ VoV_Z (ind r) = NaN /\
    is_finite (Vol_Combined r) = true /\
    WidthPct r
    = fmul (fmul (fmul (Fin 1.65) (Vol_Combined r))
                 (vol_factor 0.15 (ind r)))
           (vov_factor 0.10 (ind r)).
Proof.
  set (frame := indicator_frame (ewm_alpha 10) (window 2) (window 20)
                  (window 20) three_bars).
  destruct (nth_error frame 2) as [r0 | ] eqn:Hrow;
    [ | exfalso; apply nth_error_None in Hrow; unfold frame in Hrow;
        rewrite indicator_frame_length in Hrow; simpl in Hrow; lia].
  pose proof (indicator_frame_row _ _ _ _ _ _ _ Hrow) as [Hb Hr0].
  assert (Hprice : price r0 = sample_bar 3 101 1000).
  { simpl in Hb. injection Hb as Hb. symmetry. exact Hb. }
  assert (Hvz : VolZ r0 = NaN).
  { rewrite Hr0. cbn [VolZ]. unfold VolZ_col, window.
    apply zscore_undefined. left. apply window_incomplete_early. lia. }
  assert (Hvvz : VoV_Z r0 = NaN).
  { rewrite Hr0. cbn [VoV_Z]. unfold window.
    apply VoV_Z_cell_warm_up. lia. }
  assert (Hewma : exists e, Vol_EWMA r0 = Fin e).
  { rewrite Hr0. cbn [Vol_EWMA].
    pose proof (Vol_EWMA_from_third (ewm_alpha 10) three_bars 2
                  (ewm_alpha_range 10 eq_refl) three_bars_positive
                  (conj (le_n 2) (le_n 3))) as Hfin.
    destruct (cell (Vol_EWMA_col (ewm_alpha 10) three_bars) 2) as [ | | | e];
      try discriminate Hfin.
    exists e. reflexivity. }
  assert (Hgk : exists g, Vol_GK r0 = Fin g).
  { rewrite Hr0. cbn [Vol_GK]. unfold Vol_GK_col.
    rewrite (cell_map_col
               (fun row => np_sqrt (np_maximum0 (gk_var row)))
               three_bars 2 _ Hb).
    rewrite Hprice.
    destruct (gk_var_real (sample_bar 3 101 1000)
                (sample_bar_positive 3 101 1000 ltac:(lra))) as [v ->].
    simpl. destruct (Rlt_dec v 0); simpl.
    - destruct (Rlt_dec 0 0); [lra | ]. eexists. reflexivity.
    - destruct (Rlt_dec v 0); [lra | ]. eexists. reflexivity. }
  assert (Hatr : exists a, Vol_ATR r0 = Fin a).
  { rewrite Hr0. cbn [Vol_ATR]. exact three_bars_Vol_ATR_third. }
  set (r := risk_range_row 1.65
              (fst (fst (normalize_weights 0.5 0.3 0.2)))
              (snd (fst (normalize_weights 0.5 0.3 0.2)))
              (snd (normalize_weights 0.5 0.3 0.2))
              0.15 0.10 0.10 r0).
  assert (Hnth : nth_error (build_risk_range frame 1.65 0.5 0.3 0.2
                              0.15 0.10 0.10) 2 = Some r).
  { rewrite build_risk_range_nth_error, Hrow. reflexivity. }
  exists r. split; [exact Hnth | ].
  split; [exact Hvz | ]. split; [exact Hvvz | ]. split.
  - unfold r. row_fields.
    destruct Hewma as [e ->], Hgk as [g ->], Hatr as [a ->]. reflexivity.
  - apply (floor_acts_only_on_negative_regime three_bars short_atr_config
             (build_risk_range frame 1.65 0.5 0.3 0.2 0.15 0.10 0.10) r).
    + unfold run_core, short_atr_config. cbn [cfg_hl cfg_atr_win
        cfg_vol_win cfg_vov_win cfg_z cfg_w_ewm cfg_w_gk cfg_w_atr
        cfg_vol_adj cfg_vov_adj cfg_tilt_gamma].
      rewrite compute_indicators_accepted;
        [reflexivity | unfold accepted; lia | discriminate].
    + exact three_bars_ordered.
    + simpl. lra.
    + simpl. lra.
    + simpl. lra.
    + simpl. lra.
    + apply (nth_error_In _ 2). exact Hnth.
    + change (ind r) with r0. unfold vol_factor. rewrite Hvz.
      simpl. lra.
    + change (ind r) with r0. unfold vov_factor. rewrite Hvvz.
      simpl. lra.
Defined.

(** ** The close and its band *)

(** The close lies inside its band unless the tilt is extreme: in every
    row with defined inputs and a positive close, if
    [|tilt_gamma * ROC_20d| <= 1] then [Lower <= Close <= Upper]. *)
Theorem band_contains_close (out : list indicator_row)
  (z w_ewm w_gk w_atr vol_adj vov_adj tilt_gamma : R) (r : risk_row)
  (roc : R) :
  In r (build_risk_range out z w_ewm w_gk w_atr vol_adj vov_adj tilt_gamma) ->
  inputs_defined (ind r) ->
  fgt (Close (price (ind r))) (Fin 0) = true ->
  ROC_20d (ind r) = Fin roc ->
  Rabs (tilt_gamma * roc) <= 1 ->
  fle (Lower r) (Close (price (ind r))) /\
  fle (Close (price (ind r))) (Upper r).
Proof.
  intros Hin Hdef Hclose Hroc Htilt. apply build_risk_range_In in Hin.
  destruct Hin as [r0 [_ ->]].
  set (nw := normalize_weights w_ewm w_gk w_atr).
  destruct Hdef as (Hc & He & Hg & Ha & Hv & Hvv & _). simpl in *.
  unfold vol_factor, vov_factor. rewrite Hroc.
  destruct (Close (price r0)) as [ | | | c]; try discriminate.
  destruct (Vol_EWMA r0); try discriminate.
  destruct (Vol_GK r0); try discriminate.
  destruct (Vol_ATR r0); try discriminate.
  destruct (VolZ r0); try discriminate.
  destruct (VoV_Z r0); try discriminate.
  simpl in *.
  destruct (Rlt_dec 0 c) as [Hc0 | ]; [ | discriminate].
  assert (Hbound : -1 <= tilt_gamma * roc <= 1).
  { pose proof (Rle_abs (tilt_gamma * roc)) as Hup.
    pose proof (Rle_abs (- (tilt_gamma * roc))) as Hlo.
    rewrite Rabs_Ropp in Hlo. lra. }
  set (g := tilt_gamma * roc) in *. clearbody g. clear Htilt.
  match goal with
  | |- context [Rlt_dec ?a 0] => destruct (Rlt_dec a 0) as [Hn | Hn];
      [ | set (p := a) in * ]
  end; simpl.
  - split; nra.
  - assert (Hw : 0 <= p * c) by (apply Rmult_le_pos; lra).
    set (wd := p * c) in *. clearbody wd. split; nra.
Qed.

Lemma band_contains_close_witness :
  let r := risk_range_row 1.65 (0.5 / 1) (0.3 / 1) (0.2 / 1) 0.15 0.10 0.10
             sample_row in
  fle (Lower r) (Close (price (ind r))) /\
  fle (Close (price (ind r))) (Upper r).
Proof.
  intros r.
  apply (band_contains_close [sample_row] 1.65 0.5 0.3 0.2 0.15 0.10 0.10
           r 0.05).
  - apply sample_row_built.
  - unfold inputs_defined. simpl. repeat split; reflexivity.
  - simpl. destruct (Rlt_dec 0 100); [reflexivity | lra].
  - reflexivity.
  - apply Rabs_le. lra.
Defined.
